(** * gcs-download-demo: the signed-URL route and the gallery client

    A shallow embedding of [src/app/page.tsx].  The file holds two
    compilation units: the React gallery component ([PhotoGallery]) and
    the route handler of [/api/signed-url] ([GET]).

    - [Module Js]     : the few JavaScript notions both units rely on
                        (truthiness, thrown values, template literals,
                        the [URL] class on absolute http(s) URLs).
    - [Module Route]  : the handler [GET], run against an explicit
                        [World] (package import, JSON parsing, the
                        object store, the clock) and producing a
                        response together with the ordered list of the
                        outside calls it made.
    - [Module Client] : the component state, [fetchSignedUrl], the two
                        effects and the carousel navigation, run against
                        a [fetch] oracle and logging every request.
    - [Module Samples], [Module ClientSamples] : concrete environments,
                        stores, requests and networks.
    - [Module RouteNotions], [Module Page], [Module ClientNotions],
      [Module Wire]   : call logs, what the page shows, the selection
                        invariant, the thumbnail click, the query string
                        between the client and the handler.
    - [Module JsFacts], [Module RouteFacts], [Module ClientFacts] : the
                        properties proved of the handler and the
                        component.
    - [Module RouteExtras], [Module WireFacts], [Module ClientExtras] :
                        further properties of the same code. *)

From Stdlib Require Import ZArith String Ascii List Lia DecimalString.
From stdpp Require Import base option strings list gmap.

Open Scope string_scope.
Open Scope Z_scope.

(* ================================================================== *)
(** ** JavaScript notions shared by both units *)
(* ================================================================== *)

Module Js.

(** A thrown value: an [Error] instance (with its [message] and, when the
    engine recorded one, its [stack]) or anything else. *)
Inductive exn :=
  | JsError (message : string) (stack : option string)
  | JsThrown.

(** The outcome of a call that may throw (or of a promise that may
    reject). *)
Inductive result (A : Type) :=
  | Ok (a : A)
  | Throws (e : exn).
Arguments Ok {A} a.
Arguments Throws {A} e.

(** [e instanceof Error ? e.message : dflt] *)
Definition message_or (e : exn) (dflt : string) : string :=
  match e with
  | JsError m _ => m
  | JsThrown => dflt
  end.

(** [e instanceof Error ? e.stack : undefined] *)
Definition stack_of (e : exn) : option string :=
  match e with
  | JsError _ s => s
  | JsThrown => None
  end.

(** Truthiness of a [string | null | undefined]: [None] stands for
    [null]/[undefined]; the empty string is falsy as well. *)
Definition truthy (o : option string) : bool :=
  match o with
  | Some s => negb (String.eqb s "")
  | None => false
  end.

(** Truthiness of a plain string. *)
Definition truthy_string (s : string) : bool := negb (String.eqb s "").

(** A [string | null] spliced into a template literal. *)
Definition template (o : option string) : string :=
  match o with
  | Some s => s
  | None => "null"
  end.

(** [`${n}`] for an integer-valued number. *)
Definition string_of_Z (z : Z) : string := NilZero.string_of_int (Z.to_int z).

(** [`${b}`] for a boolean. *)
Definition string_of_bool (b : bool) : string := if b then "true" else "false".

(** [a === b] on [string | null]. *)
Definition strict_eq (a b : option string) : bool :=
  match a, b with
  | Some x, Some y => String.eqb x y
  | None, None => true
  | _, _ => false
  end.

(** [s.includes(sub)] *)
Fixpoint includes (sub s : string) : bool :=
  String.prefix sub s ||
  match s with
  | EmptyString => false
  | String _ s' => includes sub s'
  end.

(** *** The [URL] class, on absolute http(s) URLs

    [span stop s] cuts [s] in front of its first character satisfying
    [stop]. *)
Fixpoint span (stop : ascii -> bool) (s : string) : string * string :=
  match s with
  | EmptyString => (EmptyString, EmptyString)
  | String c s' =>
      if stop c then (EmptyString, s)
      else let (a, b) := span stop s' in (String c a, b)
  end.

(** [strip_prefix p s] removes [p] from the front of [s]. *)
Fixpoint strip_prefix (p s : string) : option string :=
  match p, s with
  | EmptyString, _ => Some s
  | String a p', String b s' =>
      if Ascii.eqb a b then strip_prefix p' s' else None
  | String _ _, EmptyString => None
  end.

Definition is_colon (c : ascii) : bool := Ascii.eqb c ":".
Definition is_hash (c : ascii) : bool := Ascii.eqb c "#".
Definition ends_path (c : ascii) : bool := Ascii.eqb c "?" || Ascii.eqb c "#".
Definition ends_authority (c : ascii) : bool := Ascii.eqb c "/" || ends_path c.

Definition http_scheme (scheme : string) : bool :=
  String.eqb scheme "http" || String.eqb scheme "https".

(** The components the platform's [URL] object exposes.  [pathname] is
    never empty for http(s) ("/" stands for an empty path), [search] is
    either empty or "?" followed by a non-empty query, [hash] is either
    empty or "#" followed by a non-empty fragment. *)
Record URL := {
  protocol : string;
  authority : string;
  pathname : string;
  search : string;
  hash : string;
}.

(** [new URL(s)] for an absolute [http:] or [https:] URL written in its
    serialised form: the components are the literal substrings (the
    platform's percent-encoding and dot-segment clean-up of the input
    leave such a URL as it is).  [None] is the [TypeError] thrown on
    input that is not of this shape. *)
Definition URL_parse (s : string) : option URL :=
  let (scheme, r1) := span is_colon s in
  if negb (http_scheme scheme) then None
  else
    match strip_prefix "://" r1 with
    | None => None
    | Some r2 =>
        let (auth, r3) := span ends_authority r2 in
        if String.eqb auth "" then None
        else
          let (path, r4) := span ends_path r3 in
          let (query, frag) :=
            match r4 with
            | String c r5 =>
                if Ascii.eqb c "?" then span is_hash r5 else (EmptyString, r4)
            | EmptyString => (EmptyString, EmptyString)
            end in
          Some {| protocol := scheme ++ ":";
                  authority := auth;
                  pathname := if String.eqb path "" then "/" else path;
                  search := if String.eqb query "" then "" else "?" ++ query;
                  hash := if String.eqb frag "#" then "" else frag |}
    end.

(** A URL that is nothing but scheme and authority, such as
    ["https://cdn.example.com"]: no path, not even a closing "/", no
    query, no fragment. *)
Definition is_origin (s : string) : bool :=
  let (scheme, r1) := span is_colon s in
  http_scheme scheme &&
  match strip_prefix "://" r1 with
  | None => false
  | Some r2 =>
      let (auth, r3) := span ends_authority r2 in
      negb (String.eqb auth "") && String.eqb r3 ""
  end.

(** Predicates on strings used to describe what [URL_parse] yields. *)
Fixpoint none_of (stop : ascii -> bool) (s : string) : bool :=
  match s with
  | EmptyString => true
  | String c s' => negb (stop c) && none_of stop s'
  end.

Definition stops_at (stop : ascii -> bool) (s : string) : bool :=
  match s with
  | EmptyString => true
  | String c _ => stop c
  end.

Definition starts_with (c : ascii) (s : string) : bool :=
  match s with
  | EmptyString => false
  | String d _ => Ascii.eqb d c
  end.

(** A path as [URL_parse] yields it: it starts with "/" and holds no
    "?" or "#". *)
Definition well_formed_path (p : string) : bool :=
  starts_with "/" p && none_of ends_path p.

(** A query as [URL_parse] yields it: empty, or "?" followed by at
    least one character, none of them "#". *)
Definition well_formed_search (q : string) : bool :=
  match q with
  | EmptyString => true
  | String c q' =>
      Ascii.eqb c "?" && negb (String.eqb q' "") && none_of is_hash q'
  end.

End Js.

Import Js.

(* ================================================================== *)
(** ** The route handler of [/api/signed-url] *)
(* ================================================================== *)

Module Route.

(** *** Data *)

(** [process.env]: a map from variable names to their values. *)
Abbreviation Env := (gmap string string).

(** The request, reduced to what the handler reads from it:
    [new URL(request.url).searchParams], the decoded name/value pairs of
    the query string in their order.  (The framework hands the handler an
    absolute URL, so constructing it does not throw.) *)
Record NextRequest := {
  searchParams : list (string * string);
}.

(** [searchParams.get(name)]: the first value given for [name], or
    [null]. *)
Fixpoint searchParams_get (params : list (string * string)) (name : string)
  : option string :=
  match params with
  | [] => None
  | (k, v) :: rest =>
      if String.eqb k name then Some v else searchParams_get rest name
  end.

(** A parsed JSON value (what [JSON.parse] yields for the inline
    credentials). *)
#[warnings="-register-all"] Inductive json :=
  | JNull
  | JBool (b : bool)
  | JNumber (n : Z)
  | JString (s : string)
  | JArray (items : list json)
  | JObject (fields : list (string * json)).

(** The object passed to [new Storage(...)]. *)
Record storageConfig := {
  projectId : option string;
  keyFilename : option string;
  credentials : option json;
}.

(** [storage.bucket(bucketName).file(filePath)] *)
Record fileRef := {
  client : storageConfig;
  bucket : option string;
  name : string;
}.

(** The options object handed to [file.getSignedUrl]. *)
Record signOptions := {
  version : string;
  action : string;
  expires : Z;
}.

(** The JSON body of a response: [{ error, details? }] or
    [{ signedUrl }]. *)
Inductive body :=
  | ErrorBody (error : string) (details : option string)
  | UrlBody (signedUrl : string).

Record NextResponse := {
  status : Z;
  content_type : string;
  payload : body;
}.

(** [const headers = { "Content-Type": "application/json" }] *)
Definition headers : string := "application/json".

(** [NextResponse.json(b, { status, headers })] *)
Definition NextResponse_json (b : body) (st : Z) : NextResponse :=
  {| status := st; content_type := headers; payload := b |}.

(** *** The world outside the handler *)

Record World := {
  (** [await import("@google-cloud/storage")] *)
  import_storage : result unit;
  (** [JSON.parse] *)
  JSON_parse : string -> result json;
  (** [new Storage(config)] *)
  new_Storage : storageConfig -> result unit;
  (** [await file.exists()] *)
  file_exists : fileRef -> result bool;
  (** [await file.getSignedUrl(options)] *)
  file_getSignedUrl : fileRef -> signOptions -> result string;
  (** [Date.now()], in milliseconds *)
  Date_now : Z;
  (** the [TypeError] of [new URL(s)] on input it rejects *)
  invalid_URL : string -> exn;
}.

(** The calls that leave the process, in the order they are made. *)
Inductive event :=
  | EvImport (r : result unit)
  | EvNewStorage (cfg : storageConfig) (r : result unit)
  | EvExists (f : fileRef) (r : result bool)
  | EvGetSignedUrl (f : fileRef) (o : signOptions) (r : result string).

(** An event is a contact with the object store when it is a call on a
    file of a bucket. *)
Definition store_contact (e : event) : bool :=
  match e with
  | EvExists _ _ | EvGetSignedUrl _ _ _ => true
  | _ => false
  end.

(** *** Control flow: values, early [return], [throw], and the call log *)

Inductive outcome (A : Type) :=
  | Value (a : A)
  | Returned (r : NextResponse)
  | Thrown (e : exn).
Arguments Value {A} a.
Arguments Returned {A} r.
Arguments Thrown {A} e.

Definition M (A : Type) : Type := outcome A * list event.

#[global] Instance M_ret : MRet M := λ A a, (Value a, []).

#[global] Instance M_bind : MBind M := λ A B k m,
  match m with
  | (Value a, t1) => let (o, t2) := k a in (o, (t1 ++ t2)%list)
  | (Returned r, t1) => (Returned r, t1)
  | (Thrown e, t1) => (Thrown e, t1)
  end.

(** [return r] *)
Definition return_ {A} (r : NextResponse) : M A := (Returned r, []).

(** [if (c) { return r }] *)
Definition return_if (c : bool) (r : NextResponse) : M unit :=
  if c then return_ r else mret tt.

(** A call whose result may be a thrown value, not logged. *)
Definition lift {A} (r : result A) : M A :=
  match r with
  | Ok a => (Value a, [])
  | Throws e => (Thrown e, [])
  end.

(** A logged call. *)
Definition call {A} (ev : result A -> event) (r : result A) : M A :=
  match r with
  | Ok a => (Value a, [ev r])
  | Throws e => (Thrown e, [ev r])
  end.

(** [try { m } catch (e) { return h e }] *)
Definition try_catch {A} (m : M A) (h : exn -> NextResponse) : M A :=
  match m with
  | (Thrown e, t) => (Returned (h e), t)
  | other => other
  end.

(** [new URL(s)] *)
Definition new_URL (w : World) (s : string) : M URL :=
  match URL_parse s with
  | Some u => mret u
  | None => (Thrown (invalid_URL w s), [])
  end.

(** *** The handler *)

Definition config_present (env : Env) : bool :=
  truthy (env !! "GOOGLE_CLOUD_PROJECT_ID")
  && truthy (env !! "GOOGLE_CLOUD_BUCKET_NAME")
  && (truthy (env !! "GOOGLE_CLOUD_KEY_FILE")
      || truthy (env !! "GOOGLE_CLOUD_CREDENTIALS")).

(** [const subdirectory = original ? "original" : "optimized"]
    [const filePath = `${directory}/${subdirectory}/${filename}`] *)
Definition filePath (directory filename : option string) (original : bool)
  : string :=
  let subdirectory := if original then "original" else "optimized" in
  template directory ++ "/" ++ subdirectory ++ "/" ++ template filename.

(** The [original] flag as the handler reads it. *)
Definition original_flag (request : NextRequest) : bool :=
  strict_eq (searchParams_get (searchParams request) "original") (Some "true").

(** The handler is one function; its blocks are named here after the
    comments that head them in the source. *)

(** [// Check environment variables first] *)
Definition check_environment (env : Env) : M unit :=
  return_if (negb (truthy (env !! "GOOGLE_CLOUD_PROJECT_ID")))
    (NextResponse_json
       (ErrorBody "Google Cloud project ID not configured" None) 500);;
  return_if (negb (truthy (env !! "GOOGLE_CLOUD_BUCKET_NAME")))
    (NextResponse_json
       (ErrorBody "Google Cloud Storage bucket name not configured" None) 500);;
  return_if (negb (truthy (env !! "GOOGLE_CLOUD_KEY_FILE"))
             && negb (truthy (env !! "GOOGLE_CLOUD_CREDENTIALS")))
    (NextResponse_json
       (ErrorBody "Google Cloud credentials not configured" None) 500).

(** [// Validate required parameters] *)
Definition validate_parameters (directory filename : option string) : M unit :=
  return_if (negb (truthy directory) || negb (truthy filename))
    (NextResponse_json
       (ErrorBody "Missing required parameters: directory and filename" None)
       400).

(** [// Try to import and initialize Google Cloud Storage] *)
Definition import_package (w : World) : M unit :=
  try_catch (call EvImport (import_storage w))
    (λ _, NextResponse_json
            (ErrorBody "Google Cloud Storage package not available" None) 500).

(** [// Initialize storage client] *)
Definition initialize_client (env : Env) (w : World) : M storageConfig :=
  try_catch
    (let storageConfig :=
       {| projectId := env !! "GOOGLE_CLOUD_PROJECT_ID";
          keyFilename := None;
          credentials := None |} in
     storageConfig ←
       (if truthy (env !! "GOOGLE_CLOUD_KEY_FILE") then
          mret {| projectId := projectId storageConfig;
                  keyFilename := env !! "GOOGLE_CLOUD_KEY_FILE";
                  credentials := credentials storageConfig |}
        else if truthy (env !! "GOOGLE_CLOUD_CREDENTIALS") then
          parsed ← try_catch
            (lift (JSON_parse w (template (env !! "GOOGLE_CLOUD_CREDENTIALS"))))
            (λ _, NextResponse_json
                    (ErrorBody "Invalid Google Cloud credentials format" None)
                    500);
          mret {| projectId := projectId storageConfig;
                  keyFilename := keyFilename storageConfig;
                  credentials := Some parsed |}
        else mret storageConfig);
     call (EvNewStorage storageConfig) (new_Storage w storageConfig);;
     mret storageConfig)
    (λ initError,
       NextResponse_json
         (ErrorBody ("Failed to initialize Google Cloud Storage: "
                     ++ message_or initError "Unknown error") None) 500).

(** The options of the signing request:
    [{ version: "v4", action: "read", expires: Date.now() + 60 * 60 * 1000 }] *)
Definition sign_options (w : World) : signOptions :=
  {| version := "v4";
     action := "read";
     expires := Date_now w + 60 * 60 * 1000 |}.

(** [// If you have a CDN endpoint configured, replace the storage URL] *)
Definition rewrite_for_cdn (env : Env) (w : World) (signedUrl : string)
  : M string :=
  let cdnEndpoint := env !! "GOOGLE_CLOUD_CDN_ENDPOINT" in
  if truthy cdnEndpoint then
    url ← new_URL w signedUrl;
    let pathAndQuery := pathname url ++ search url in
    mret (template cdnEndpoint ++ pathAndQuery)
  else mret signedUrl.

(** [// Get file reference and check existence], [// Generate signed URL] *)
Definition sign_file (env : Env) (w : World) (storage : storageConfig)
    (filePath : string) : M Empty_set :=
  let bucketName := env !! "GOOGLE_CLOUD_BUCKET_NAME" in
  try_catch
    (let file := {| client := storage; bucket := bucketName; name := filePath |} in
     exists_ ← call (EvExists file) (file_exists w file);
     return_if (negb exists_)
       (NextResponse_json (ErrorBody ("File not found: " ++ filePath) None) 404);;
     let options := sign_options w in
     signedUrl ← call (EvGetSignedUrl file options)
                      (file_getSignedUrl w file options);
     finalUrl ← rewrite_for_cdn env w signedUrl;
     return_ (NextResponse_json (UrlBody finalUrl) 200))
    (λ storageError,
       NextResponse_json
         (ErrorBody ("Storage operation failed: "
                     ++ message_or storageError "Unknown storage error")
                    (stack_of storageError)) 500).

(** The body of the outer [try] block. *)
Definition GET_body (env : Env) (w : World) (request : NextRequest)
  : M Empty_set :=
  check_environment env;;
  (* Parse request parameters *)
  let directory := searchParams_get (searchParams request) "directory" in
  let filename := searchParams_get (searchParams request) "filename" in
  let original := original_flag request in
  validate_parameters directory filename;;
  import_package w;;
  storage ← initialize_client env w;
  (* Construct file path *)
  let filePath := filePath directory filename original in
  sign_file env w storage filePath.

(** [export async function GET(request)]: the response and the calls
    made, oldest first. *)
Definition GET (env : Env) (w : World) (request : NextRequest)
  : NextResponse * list event :=
  match GET_body env w request with
  | (Returned r, t) => (r, t)
  | (Thrown error, t) =>
      (NextResponse_json
         (ErrorBody ("Unexpected error: " ++ message_or error "Unknown error")
                    (stack_of error)) 500, t)
  | (Value v, _) => match v with end
  end.

(** *** The runs of the handler, case by case

    [GET_run env w request r t]: the handler may answer [r] after making
    the calls [t].  One constructor per exit of the function; the
    premises are the tests passed on the way.  [GET_run_sound] below
    shows that [GET] always takes one of them. *)

(** The object key the request designates. *)
Definition key (request : NextRequest) : string :=
  filePath (searchParams_get (searchParams request) "directory")
           (searchParams_get (searchParams request) "filename")
           (original_flag request).

Definition params_present (request : NextRequest) : bool :=
  truthy (searchParams_get (searchParams request) "directory")
  && truthy (searchParams_get (searchParams request) "filename").

Definition config_errors : list string :=
  [ "Google Cloud project ID not configured";
    "Google Cloud Storage bucket name not configured";
    "Google Cloud credentials not configured" ].

Definition json_error (msg : string) (details : option string) (st : Z)
  : NextResponse :=
  NextResponse_json (ErrorBody msg details) st.

Definition storage_failed (e : exn) : NextResponse :=
  json_error
    ("Storage operation failed: " ++ message_or e "Unknown storage error")
    (stack_of e) 500.

(** The configuration object [initialize_client] hands to
    [new Storage], or what [JSON.parse] throws on the inline
    credentials. *)
Definition client_config (env : Env) (w : World) : result storageConfig :=
  if truthy (env !! "GOOGLE_CLOUD_KEY_FILE") then
    Ok {| projectId := env !! "GOOGLE_CLOUD_PROJECT_ID";
          keyFilename := env !! "GOOGLE_CLOUD_KEY_FILE";
          credentials := None |}
  else if truthy (env !! "GOOGLE_CLOUD_CREDENTIALS") then
    match JSON_parse w (template (env !! "GOOGLE_CLOUD_CREDENTIALS")) with
    | Ok parsed =>
        Ok {| projectId := env !! "GOOGLE_CLOUD_PROJECT_ID";
              keyFilename := None;
              credentials := Some parsed |}
    | Throws e => Throws e
    end
  else
    Ok {| projectId := env !! "GOOGLE_CLOUD_PROJECT_ID";
          keyFilename := None;
          credentials := None |}.

(** The file reference the handler builds on a client [cfg]. *)
Definition file_of (env : Env) (request : NextRequest) (cfg : storageConfig)
  : fileRef :=
  {| client := cfg;
     bucket := env !! "GOOGLE_CLOUD_BUCKET_NAME";
     name := key request |}.

Inductive GET_run (env : Env) (w : World) (request : NextRequest)
  : NextResponse -> list event -> Prop :=
  | run_no_config msg :
      config_present env = false -> In msg config_errors ->
      GET_run env w request (json_error msg None 500) []
  | run_bad_request :
      config_present env = true -> params_present request = false ->
      GET_run env w request
        (json_error "Missing required parameters: directory and filename"
                    None 400) []
  | run_no_package e :
      config_present env = true -> params_present request = true ->
      import_storage w = Throws e ->
      GET_run env w request
        (json_error "Google Cloud Storage package not available" None 500)
        [EvImport (Throws e)]
  | run_bad_credentials e :
      config_present env = true -> params_present request = true ->
      import_storage w = Ok tt ->
      client_config env w = Throws e ->
      GET_run env w request
        (json_error "Invalid Google Cloud credentials format" None 500)
        [EvImport (Ok tt)]
  | run_no_client cfg e :
      config_present env = true -> params_present request = true ->
      import_storage w = Ok tt ->
      client_config env w = Ok cfg ->
      new_Storage w cfg = Throws e ->
      GET_run env w request
        (json_error ("Failed to initialize Google Cloud Storage: "
                     ++ message_or e "Unknown error") None 500)
        [EvImport (Ok tt); EvNewStorage cfg (Throws e)]
  | run_exists_error cfg e :
      config_present env = true -> params_present request = true ->
      import_storage w = Ok tt ->
      client_config env w = Ok cfg -> new_Storage w cfg = Ok tt ->
      file_exists w (file_of env request cfg) = Throws e ->
      GET_run env w request (storage_failed e)
        [EvImport (Ok tt); EvNewStorage cfg (Ok tt);
         EvExists (file_of env request cfg) (Throws e)]
  | run_not_found cfg :
      config_present env = true -> params_present request = true ->
      import_storage w = Ok tt ->
      client_config env w = Ok cfg -> new_Storage w cfg = Ok tt ->
      file_exists w (file_of env request cfg) = Ok false ->
      GET_run env w request
        (json_error ("File not found: " ++ key request) None 404)
        [EvImport (Ok tt); EvNewStorage cfg (Ok tt);
         EvExists (file_of env request cfg) (Ok false)]
  | run_sign_error cfg e :
      config_present env = true -> params_present request = true ->
      import_storage w = Ok tt ->
      client_config env w = Ok cfg -> new_Storage w cfg = Ok tt ->
      file_exists w (file_of env request cfg) = Ok true ->
      file_getSignedUrl w (file_of env request cfg) (sign_options w)
        = Throws e ->
      GET_run env w request (storage_failed e)
        [EvImport (Ok tt); EvNewStorage cfg (Ok tt);
         EvExists (file_of env request cfg) (Ok true);
         EvGetSignedUrl (file_of env request cfg) (sign_options w) (Throws e)]
  | run_rewrite_error cfg signedUrl :
      config_present env = true -> params_present request = true ->
      import_storage w = Ok tt ->
      client_config env w = Ok cfg -> new_Storage w cfg = Ok tt ->
      file_exists w (file_of env request cfg) = Ok true ->
      file_getSignedUrl w (file_of env request cfg) (sign_options w)
        = Ok signedUrl ->
      truthy (env !! "GOOGLE_CLOUD_CDN_ENDPOINT") = true ->
      URL_parse signedUrl = None ->
      GET_run env w request (storage_failed (invalid_URL w signedUrl))
        [EvImport (Ok tt); EvNewStorage cfg (Ok tt);
         EvExists (file_of env request cfg) (Ok true);
         EvGetSignedUrl (file_of env request cfg) (sign_options w)
                        (Ok signedUrl)]
  | run_cdn cfg signedUrl url :
      config_present env = true -> params_present request = true ->
      import_storage w = Ok tt ->
      client_config env w = Ok cfg -> new_Storage w cfg = Ok tt ->
      file_exists w (file_of env request cfg) = Ok true ->
      file_getSignedUrl w (file_of env request cfg) (sign_options w)
        = Ok signedUrl ->
      truthy (env !! "GOOGLE_CLOUD_CDN_ENDPOINT") = true ->
      URL_parse signedUrl = Some url ->
      GET_run env w request
        (NextResponse_json
           (UrlBody (template (env !! "GOOGLE_CLOUD_CDN_ENDPOINT")
                     ++ pathname url ++ search url)) 200)
        [EvImport (Ok tt); EvNewStorage cfg (Ok tt);
         EvExists (file_of env request cfg) (Ok true);
         EvGetSignedUrl (file_of env request cfg) (sign_options w)
                        (Ok signedUrl)]
  | run_direct cfg signedUrl :
      config_present env = true -> params_present request = true ->
      import_storage w = Ok tt ->
      client_config env w = Ok cfg -> new_Storage w cfg = Ok tt ->
      file_exists w (file_of env request cfg) = Ok true ->
      file_getSignedUrl w (file_of env request cfg) (sign_options w)
        = Ok signedUrl ->
      truthy (env !! "GOOGLE_CLOUD_CDN_ENDPOINT") = false ->
      GET_run env w request (NextResponse_json (UrlBody signedUrl) 200)
        [EvImport (Ok tt); EvNewStorage cfg (Ok tt);
         EvExists (file_of env request cfg) (Ok true);
         EvGetSignedUrl (file_of env request cfg) (sign_options w)
                        (Ok signedUrl)].

End Route.

(* ================================================================== *)
(** ** The gallery component *)
(* ================================================================== *)

Module Client.

(** Hardcoded list of known image filenames *)
Definition IMAGE_FILENAMES : list string :=
  ["image1.jpg"; "image2.jpg"; "image3.jpg"; "image4.jpg"; "image5.jpg"].

Definition DIRECTORY_NAME : string := "gallery".

(** [interface SignedUrlResponse] *)
Module Data.
Record SignedUrlResponse := {
  signedUrl : string;
  error : option string;
  details : option string;
}.
End Data.

(** What [fetch] resolves to: the [Response], with the body both as text
    and as the result of reading it as JSON. *)
Record Response := {
  ok : bool;
  status : Z;
  content_type : option string;       (* headers.get("content-type") *)
  text : string;                      (* await response.text() *)
  parsed : result Data.SignedUrlResponse;
                                      (* JSON.parse(text), response.json() *)
}.

(** The network: the answer to the [n]-th request of the page (counting
    from 0), made to the given URL; [Throws] is a rejected promise. *)
Definition Fetch : Type := nat -> string -> result Response.

(** *** Component state: one field per [useState] *)
Record state := {
  selectedImage : option string;
  currentIndex : Z;
  optimizedUrls : gmap string string;
  originalUrl : string;
  loading : bool;
  originalLoading : bool;
  error : option string;
  errorDetails : option string;
}.

(** [IMAGE_FILENAMES[i]]: [undefined] outside the list. *)
Definition array_get (l : list string) (i : Z) : option string :=
  if i <? 0 then None else l !! Z.to_nat i.

(** The state of the first render. *)
Definition initial_state : state :=
  {| selectedImage := array_get IMAGE_FILENAMES 0;
     currentIndex := 0;
     optimizedUrls := ∅;
     originalUrl := "";
     loading := true;
     originalLoading := false;
     error := None;
     errorDetails := None |}.

(** The component's current state together with the requests the page
    has sent so far, oldest first. *)
Record store := {
  ui : state;
  requests : list string;
}.

Definition initial_store : store := {| ui := initial_state; requests := [] |}.

(** *** Asynchronous code over the store, with rejections

    State setters write the store; the variables a closure reads
    ([error], [selectedImage], [currentIndex]) are those of the render
    that created it, passed to it as [render]. *)
Definition C (A : Type) : Type := store -> result A * store.

#[global] Instance C_ret : MRet C := λ A a s, (Ok a, s).

#[global] Instance C_bind : MBind C := λ A B k m s,
  match m s with
  | (Ok a, s') => k a s'
  | (Throws e, s') => (Throws e, s')
  end.

(** [try { m } catch (e) { h e }] *)
Definition try_catch {A} (m : C A) (h : exn -> C A) : C A := λ s,
  match m s with
  | (Throws e, s') => h e s'
  | other => other
  end.

(** [await p] for an outcome already known. *)
Definition await {A} (r : result A) : C A := λ s, (r, s).

Definition modify (f : state -> state) : C unit := λ s,
  (Ok tt, {| ui := f (ui s); requests := requests s |}).

Definition setSelectedImage (v : option string) : C unit :=
  modify (λ st,
    {| selectedImage := v; currentIndex := currentIndex st;
       optimizedUrls := optimizedUrls st; originalUrl := originalUrl st;
       loading := loading st; originalLoading := originalLoading st;
       error := error st; errorDetails := errorDetails st |}).

Definition setCurrentIndex (v : Z) : C unit :=
  modify (λ st,
    {| selectedImage := selectedImage st; currentIndex := v;
       optimizedUrls := optimizedUrls st; originalUrl := originalUrl st;
       loading := loading st; originalLoading := originalLoading st;
       error := error st; errorDetails := errorDetails st |}).

Definition setOptimizedUrls (v : gmap string string) : C unit :=
  modify (λ st,
    {| selectedImage := selectedImage st; currentIndex := currentIndex st;
       optimizedUrls := v; originalUrl := originalUrl st;
       loading := loading st; originalLoading := originalLoading st;
       error := error st; errorDetails := errorDetails st |}).

Definition setOriginalUrl (v : string) : C unit :=
  modify (λ st,
    {| selectedImage := selectedImage st; currentIndex := currentIndex st;
       optimizedUrls := optimizedUrls st; originalUrl := v;
       loading := loading st; originalLoading := originalLoading st;
       error := error st; errorDetails := errorDetails st |}).

Definition setLoading (v : bool) : C unit :=
  modify (λ st,
    {| selectedImage := selectedImage st; currentIndex := currentIndex st;
       optimizedUrls := optimizedUrls st; originalUrl := originalUrl st;
       loading := v; originalLoading := originalLoading st;
       error := error st; errorDetails := errorDetails st |}).

Definition setOriginalLoading (v : bool) : C unit :=
  modify (λ st,
    {| selectedImage := selectedImage st; currentIndex := currentIndex st;
       optimizedUrls := optimizedUrls st; originalUrl := originalUrl st;
       loading := loading st; originalLoading := v;
       error := error st; errorDetails := errorDetails st |}).

Definition setError (v : option string) : C unit :=
  modify (λ st,
    {| selectedImage := selectedImage st; currentIndex := currentIndex st;
       optimizedUrls := optimizedUrls st; originalUrl := originalUrl st;
       loading := loading st; originalLoading := originalLoading st;
       error := v; errorDetails := errorDetails st |}).

Definition setErrorDetails (v : option string) : C unit :=
  modify (λ st,
    {| selectedImage := selectedImage st; currentIndex := currentIndex st;
       optimizedUrls := optimizedUrls st; originalUrl := originalUrl st;
       loading := loading st; originalLoading := originalLoading st;
       error := error st; errorDetails := v |}).

(** [await fetch(url)]: the request is logged, the network answers. *)
Definition fetch_ (fetch : Fetch) (url : string) : C Response := λ s,
  (fetch (length (requests s)) url,
   {| ui := ui s; requests := requests s ++ [url] |}).

(** The URL [fetchSignedUrl] requests. *)
Definition signed_url_request (filename : string) (original : bool) : string :=
  "/api/signed-url?directory=" ++ DIRECTORY_NAME
  ++ "&filename=" ++ filename
  ++ "&original=" ++ string_of_bool original.

(** [x || dflt] on strings *)
Definition or_else (x : option string) (dflt : string) : option string :=
  if truthy x then x else Some dflt.

(** Fetch signed URL for an image *)
Definition fetchSignedUrl (fetch : Fetch) (filename : string) (original : bool)
  : C string :=
  try_catch
    (setError None;;
     setErrorDetails None;;
     response ← fetch_ fetch (signed_url_request filename original);
     if negb (ok response) then
       let errorText := text response in
       (* Try to parse as JSON if possible *)
       try_catch
         (errorJson ← await (parsed response);
          setError (or_else (Data.error errorJson)
                            ("Server error: " ++ string_of_Z (status response)));;
          if truthy (Data.details errorJson)
          then setErrorDetails (Data.details errorJson)
          else mret tt)
         (λ _, setError (Some ("Server error: " ++ string_of_Z (status response)
                               ++ " - " ++ errorText)));;
       mret ""
     else
       (* Check if response is JSON *)
       let contentType := content_type response in
       if negb (truthy contentType)
          || negb (includes "application/json" (template contentType)) then
         setError (Some "Invalid server response format");;
         mret ""
       else
         data ← await (parsed response);
         if truthy (Data.error data) then
           setError (Data.error data);;
           (if truthy (Data.details data)
            then setErrorDetails (Data.details data)
            else mret tt);;
           mret ""
         else mret (Data.signedUrl data))
    (λ error,
       setError (Some (message_or error "Unknown error occurred"));;
       mret "").

(** The [for (const filename of IMAGE_FILENAMES)] loop of
    [loadOptimizedImages]: [urls] is the local record being filled;
    [error] in [if (error) break] is the variable of the render that
    created the effect. *)
Fixpoint thumbnails_loop (fetch : Fetch) (render : state)
    (filenames : list string) (urls : gmap string string)
  : C (gmap string string) :=
  match filenames with
  | [] => mret urls
  | filename :: rest =>
      url ← fetchSignedUrl fetch filename false;
      let urls := if truthy_string url then <[filename := url]> urls else urls in
      (* Stop on first error to avoid spamming *)
      if truthy (error render) then mret urls
      else thumbnails_loop fetch render rest urls
  end.

(** Load optimized images for carousel *)
Definition loadOptimizedImages (fetch : Fetch) (render : state) : C unit :=
  setLoading true;;
  urls ← thumbnails_loop fetch render IMAGE_FILENAMES ∅;
  setOptimizedUrls urls;;
  setLoading false.

(** Load original image when selection changes *)
Definition loadOriginalImage (fetch : Fetch) (render : state) : C unit :=
  if negb (truthy (selectedImage render)) then mret tt
  else
    setOriginalLoading true;;
    url ← fetchSignedUrl fetch (template (selectedImage render)) true;
    setOriginalUrl url;;
    setOriginalLoading false.

Definition handleImageSelect (filename : option string) (index : Z) : C unit :=
  setSelectedImage filename;;
  setCurrentIndex index.

Inductive direction := prev | next.

(** The [%] of JavaScript on integers: the remainder has the sign of the
    dividend. *)
Definition js_rem (a b : Z) : Z := Z.rem a b.

Definition navigateCarousel (render : state) (d : direction) : C unit :=
  let newIndex :=
    match d with
    | prev =>
        js_rem (currentIndex render - 1 + Z.of_nat (length IMAGE_FILENAMES))
               (Z.of_nat (length IMAGE_FILENAMES))
    | next =>
        js_rem (currentIndex render + 1) (Z.of_nat (length IMAGE_FILENAMES))
    end in
  handleImageSelect (array_get IMAGE_FILENAMES newIndex) newIndex.

(** *** Renders and effects

    A closure created by a render sees that render's state.  An effect
    runs after the render that scheduled it. *)
Definition in_render {A} (k : state -> C A) : C A := λ s, k (ui s) s.

(** [useEffect(() => { loadOptimizedImages() }, [])]: runs once, after
    the first render. *)
Definition mount_thumbnails (fetch : Fetch) : C unit :=
  loadOptimizedImages fetch initial_state.

(** [useEffect(() => { loadOriginalImage() }, [selectedImage])] after a
    click on a carousel arrow. *)
Definition click_arrow (fetch : Fetch) (d : direction) : C unit :=
  in_render (λ render, navigateCarousel render d);;
  in_render (λ render, loadOriginalImage fetch render).

(** What the thumbnail slot of [filename] shows: the image once
    [optimizedUrls[filename]] is truthy, the spinner until then. *)
Inductive slot := Thumbnail (src : string) | Spinner.

Definition thumbnail_slot (st : state) (filename : string) : slot :=
  match optimizedUrls st !! filename with
  | Some url => if truthy_string url then Thumbnail url else Spinner
  | None => Spinner
  end.

(** What the alert shows: nothing while [error] is falsy, else the
    message and, when truthy, the details. *)
Definition alert (st : state) : option (string * option string) :=
  if truthy (error st)
  then Some (template (error st),
             if truthy (errorDetails st) then errorDetails st else None)
  else None.

(** *** What one fetch leaves behind

    [settle r] sums up [fetchSignedUrl] on the network answer [r]: the
    string returned, and the values [error] and [errorDetails] hold when
    it returns ([fetchSignedUrl_settles] below). *)
Definition settle (r : result Response)
  : string * option string * option string :=
  match r with
  | Throws e => ("", Some (message_or e "Unknown error occurred"), None)
  | Ok response =>
      if negb (ok response) then
        match parsed response with
        | Ok errorJson =>
            ("",
             or_else (Data.error errorJson)
                     ("Server error: " ++ string_of_Z (status response)),
             if truthy (Data.details errorJson)
             then Data.details errorJson else None)
        | Throws _ =>
            ("",
             Some ("Server error: " ++ string_of_Z (status response)
                   ++ " - " ++ text response),
             None)
        end
      else if negb (truthy (content_type response))
              || negb (includes "application/json"
                                (template (content_type response))) then
        ("", Some "Invalid server response format", None)
      else
        match parsed response with
        | Throws e => ("", Some (message_or e "Unknown error occurred"), None)
        | Ok data =>
            if truthy (Data.error data) then
              ("", Data.error data,
               if truthy (Data.details data) then Data.details data else None)
            else (Data.signedUrl data, None, None)
        end
  end.

Definition with_alert (st : state) (err det : option string) : state :=
  {| selectedImage := selectedImage st; currentIndex := currentIndex st;
     optimizedUrls := optimizedUrls st; originalUrl := originalUrl st;
     loading := loading st; originalLoading := originalLoading st;
     error := err; errorDetails := det |}.

(** The body of a response is read as JSON when the status is not ok, or
    when the content type says JSON. *)
Definition reads_json (response : Response) : bool :=
  negb (ok response)
  || (truthy (content_type response)
      && includes "application/json" (template (content_type response))).

End Client.

(* ================================================================== *)
(** ** Sample environments, worlds and networks *)
(* ================================================================== *)

Module Samples.
Import Route.

(** A value is missing when it is unset or the empty string. *)
Definition missing (o : option string) : Prop := o = None \/ o = Some "".

(** A complete configuration with a key file. *)
Definition env_key_file : Env :=
  <["GOOGLE_CLOUD_PROJECT_ID" := "demo-project"]>
    (<["GOOGLE_CLOUD_BUCKET_NAME" := "demo-bucket"]>
       (<["GOOGLE_CLOUD_KEY_FILE" := "key.json"]> ∅)).

(** The same with a CDN endpoint that is a bare origin. *)
Definition env_cdn : Env :=
  <["GOOGLE_CLOUD_CDN_ENDPOINT" := "https://cdn.example.com"]> env_key_file.


(** No configuration at all. *)
Definition env_empty : Env := ∅.

(** The URL a store signs for an object (the signature is a stand-in). *)
Definition signed_for (f : fileRef) (o : signOptions) : string :=
  "https://storage.googleapis.com/" ++ template (bucket f) ++ "/" ++ name f
  ++ "?X-Goog-Algorithm=GOOG4-RSA-SHA256&X-Goog-Signature=5f2a".

(** A store that holds every object and signs every request. *)
Definition world_ok : World :=
  {| import_storage := Ok tt;
     JSON_parse := λ _, Throws (JsError "Unexpected token" None);
     new_Storage := λ _, Ok tt;
     file_exists := λ _, Ok true;
     file_getSignedUrl := λ f o, Ok (signed_for f o);
     Date_now := 1700000000000;
     invalid_URL := λ _, JsError "Invalid URL" None |}.


(** A store that holds no object. *)
Definition world_empty_bucket : World :=
  {| import_storage := Ok tt;
     JSON_parse := λ _, Throws (JsError "Unexpected token" None);
     new_Storage := λ _, Ok tt;
     file_exists := λ _, Ok false;
     file_getSignedUrl := λ f o, Ok (signed_for f o);
     Date_now := 1700000000000;
     invalid_URL := λ _, JsError "Invalid URL" None |}.

Definition request_thumbnail : NextRequest :=
  {| searchParams := [("directory", "gallery"); ("filename", "image1.jpg");
                      ("original", "false")] |}.

Definition request_original : NextRequest :=
  {| searchParams := [("directory", "gallery"); ("filename", "image1.jpg");
                      ("original", "true")] |}.

Definition request_upper_TRUE : NextRequest :=
  {| searchParams := [("directory", "gallery"); ("filename", "image1.jpg");
                      ("original", "TRUE")] |}.

Definition request_without_filename : NextRequest :=
  {| searchParams := [("directory", "gallery"); ("original", "true")] |}.

Definition key_file_client : storageConfig :=
  {| projectId := Some "demo-project";
     keyFilename := Some "key.json";
     credentials := None |}.

Definition thumbnail_file : fileRef :=
  {| client := key_file_client;
     bucket := Some "demo-bucket";
     name := "gallery/optimized/image1.jpg" |}.

End Samples.

Module ClientSamples.
Import Client.

(** A 200 answer carrying a signed URL. *)
Definition signed_response (url : string) : Response :=
  {| ok := true;
     status := 200;
     content_type := Some "application/json";
     text := "{...}";
     parsed := Ok {| Data.signedUrl := url;
                     Data.error := None;
                     Data.details := None |} |}.

(** An error answer of the service. *)
Definition error_response (st : Z) (msg : string) (det : option string)
  : Response :=
  {| ok := false;
     status := st;
     content_type := Some "application/json";
     text := "{...}";
     parsed := Ok {| Data.signedUrl := "";
                     Data.error := Some msg;
                     Data.details := det |} |}.

(** The first request of the page fails, every later one succeeds. *)
Definition network_first_fails : Fetch := λ n url,
  if (n =? 0)%nat
  then Ok (error_response 500 "Storage operation failed: socket hang up"
                          (Some "Error: socket hang up"))
  else Ok (signed_response ("https://storage.googleapis.com" ++ url)).

(** The first request is answered 404, every later one 500. *)
Definition network_two_errors : Fetch := λ n url,
  if (n =? 0)%nat
  then Ok (error_response 404 "File not found: gallery/original/image1.jpg"
                          None)
  else Ok (error_response 500 "Storage operation failed: socket hang up"
                          (Some "Error: socket hang up")).

End ClientSamples.

(* ================================================================== *)
(** ** Further notions: call logs, the page, the query string *)
(* ================================================================== *)

Module RouteNotions.
Import Route.

(** An outside call that threw. *)
Definition failed (e : event) : bool :=
  match e with
  | EvImport (Throws _) | EvNewStorage _ (Throws _)
  | EvExists _ (Throws _) | EvGetSignedUrl _ _ (Throws _) => true
  | _ => false
  end.

(** The same world with another [JSON.parse]. *)
Definition with_JSON_parse (w : World) (parse : string -> result json)
  : World :=
  {| import_storage := import_storage w;
     JSON_parse := parse;
     new_Storage := new_Storage w;
     file_exists := file_exists w;
     file_getSignedUrl := file_getSignedUrl w;
     Date_now := Date_now w;
     invalid_URL := invalid_URL w |}.

(** The four outside calls of a complete run on the client [cfg], each
    with the answer of the world. *)
Definition full_log (env : Env) (w : World) (request : NextRequest)
    (cfg : storageConfig) : list event :=
  [ EvImport (import_storage w);
    EvNewStorage cfg (new_Storage w cfg);
    EvExists (file_of env request cfg)
             (file_exists w (file_of env request cfg));
    EvGetSignedUrl (file_of env request cfg)
      {| version := "v4"; action := "read";
         expires := Date_now w + 3600000 |}
      (file_getSignedUrl w (file_of env request cfg)
         {| version := "v4"; action := "read";
            expires := Date_now w + 3600000 |}) ].

Definition is_slash (c : ascii) : bool := Ascii.eqb c "/".

(** A configuration with inline credentials that are not JSON. *)
Definition env_inline_credentials : Env :=
  <["GOOGLE_CLOUD_PROJECT_ID" := "demo-project"]>
    (<["GOOGLE_CLOUD_BUCKET_NAME" := "demo-bucket"]>
       (<["GOOGLE_CLOUD_CREDENTIALS" := "{client_email:"]> ∅)).

(** A store whose existence check fails. *)
Definition world_store_down : World :=
  {| import_storage := Ok tt;
     JSON_parse := λ _, Throws (JsError "Unexpected token" None);
     new_Storage := λ _, Ok tt;
     file_exists := λ _,
       Throws (JsError "getaddrinfo ENOTFOUND storage.googleapis.com"
                       (Some "Error: getaddrinfo ENOTFOUND"));
     file_getSignedUrl := λ _ _, Throws JsThrown;
     Date_now := 1700000000000;
     invalid_URL := λ _, JsError "Invalid URL" None |}.

End RouteNotions.

Module Page.
Import Client.

(** What the main display area shows (the three-way conditional on
    [originalLoading] and [originalUrl]). *)
Inductive main_view :=
  | LoadingOriginal
  | OriginalImage (src : string)
  | FailedToLoad.

Definition main_area (st : state) : main_view :=
  if originalLoading st then LoadingOriginal
  else if truthy_string (originalUrl st) then OriginalImage (originalUrl st)
  else FailedToLoad.



(** The selection and the index agree and the index is inside the
    list. *)
Definition consistent (st : state) : Prop :=
  0 <= currentIndex st < Z.of_nat (length IMAGE_FILENAMES)
  /\ selectedImage st = IMAGE_FILENAMES !! Z.to_nat (currentIndex st).

(** [onClick={() => handleImageSelect(filename, index)}] on the
    thumbnail at position [index] of [IMAGE_FILENAMES.map]; there is no
    thumbnail outside the list. *)
Definition click_thumbnail_handler (index : nat) : C unit :=
  match IMAGE_FILENAMES !! index with
  | Some filename => handleImageSelect (Some filename) (Z.of_nat index)
  | None => mret tt
  end.

(** [useEffect(..., [selectedImage])]: after a render, the effect runs
    again only when [selectedImage] differs from its value at the
    previous render. *)
Definition selection_effect (fetch : Fetch) (before : state) : C unit :=
  in_render (λ render,
    if strict_eq (selectedImage render) (selectedImage before) then mret tt
    else loadOriginalImage fetch render).

(** A click on a thumbnail, followed by the render it causes. *)
Definition click_thumbnail (fetch : Fetch) (index : nat) : C unit :=
  in_render (λ before,
    click_thumbnail_handler index;;
    selection_effect fetch before).

End Page.

Module ClientNotions.
Import Client.


(** A gateway error page: not ok, and the body is not JSON. *)
Definition gateway_response : Response :=
  {| ok := false;
     status := 502;
     content_type := Some "text/html";
     text := "Bad Gateway";
     parsed := Throws (JsError "Unexpected token B in JSON" None) |}.

(** A network on which every request is answered by [response]. *)
Definition network_always (response : Response) : Fetch :=
  λ _ _, Ok response.


(** The network answer [answer] delivers the URL [url]: it is an ok
    answer, read as JSON, whose body parses, reports no error and holds
    the non-empty [signedUrl] [url]. *)
Definition delivers (answer : result Response) (url : string) : Prop :=
  url <> ""
  /\ exists response data,
       answer = Ok response
       /\ ok response = true
       /\ reads_json response = true
       /\ parsed response = Ok data
       /\ truthy (Data.error data) = false
       /\ Data.signedUrl data = url.

End ClientNotions.

Module Wire.
Import Route Client.

(** [split_on sep s]: the pieces of [s] between the separators. *)
Fixpoint split_on (sep : ascii) (s : string) : list string :=
  match s with
  | EmptyString => [EmptyString]
  | String c s' =>
      if Ascii.eqb c sep then EmptyString :: split_on sep s'
      else
        match split_on sep s' with
        | piece :: pieces => String c piece :: pieces
        | [] => [String c EmptyString]
        end
  end.

Definition is_equals (c : ascii) : bool := Ascii.eqb c "=".
Definition is_ampersand (c : ascii) : bool := Ascii.eqb c "&".

(** One [name=value] piece, cut at its first "=". *)
Definition name_value (piece : string) : string * string :=
  let (name, rest) := span is_equals piece in
  (name,
   match rest with
   | String _ value => value
   | EmptyString => EmptyString
   end).

(** The pairs [new URL(url).searchParams] holds for the query [search]
    (with its leading "?"): the non-empty pieces between "&", each cut
    at its first "=".  Percent-decoding and the reading of "+" as a
    space are left out: the pairs are those of the platform for a query
    that holds neither "%" nor "+". *)
Definition URLSearchParams (search : string) : list (string * string) :=
  let query :=
    match search with
    | String c q => if Ascii.eqb c "?" then q else search
    | EmptyString => EmptyString
    end in
  map name_value
      (List.filter (λ piece, negb (String.eqb piece "")) (split_on "&" query)).

(** The request the handler receives for the absolute URL [url]. *)
Definition request_of (url : string) : option NextRequest :=
  match URL_parse url with
  | Some u => Some {| searchParams := URLSearchParams (search u) |}
  | None => None
  end.

(** Letters, digits, ".", "_" and "-": the characters a URL carries
    unchanged, in both directions. *)
Definition safe_char (c : ascii) : bool :=
  let n := N_of_ascii c in
  ((48 <=? n) && (n <=? 57))%N
  || ((65 <=? n) && (n <=? 90))%N
  || ((97 <=? n) && (n <=? 122))%N
  || Ascii.eqb c "." || Ascii.eqb c "_" || Ascii.eqb c "-".

Definition unsafe_char (c : ascii) : bool := negb (safe_char c).

(** A file name made of safe characters only. *)
Definition safe_name (s : string) : bool := none_of unsafe_char s.

End Wire.

(* ================================================================== *)
(** ** Facts about strings and the URL model *)
(* ================================================================== *)

Module JsFacts.

Lemma truthy_false_iff (o : option string) :
  truthy o = false <-> o = None \/ o = Some "".
Proof.
  destruct o as [s|]; simpl; [|by intuition].
  rewrite negb_false_iff, String.eqb_eq. split; [intros ->; by right|].
  by intros [|[= ->]].
Qed.

Lemma truthy_Some (o : option string) :
  truthy o = true -> exists s, o = Some s /\ s <> "".
Proof.
  destruct o as [s|]; [|done]. simpl. intros Hs%negb_true_iff.
  apply String.eqb_neq in Hs. eauto.
Qed.

Lemma strict_eq_true (a : option string) (s : string) :
  strict_eq a (Some s) = true <-> a = Some s.
Proof.
  destruct a as [x|]; simpl; [|by split].
  rewrite String.eqb_eq. split; [by intros ->|by intros [= ->]].
Qed.

Lemma append_cons c (a b : string) : String c a ++ b = String c (a ++ b).
Proof. reflexivity. Qed.

Lemma append_nil_r (a : string) : a ++ "" = a.
Proof. induction a as [|x a IH]; [done|]. by rewrite append_cons, IH. Qed.

Lemma append_assoc (a b c : string) : (a ++ b) ++ c = a ++ (b ++ c).
Proof. induction a as [|x a IH]; [done|]. by rewrite !append_cons, IH. Qed.

Lemma strip_prefix_app p s : strip_prefix p (p ++ s) = Some s.
Proof.
  induction p as [|a p IH]; [by destruct s|].
  rewrite append_cons. simpl. by rewrite Ascii.eqb_refl.
Qed.

Lemma strip_prefix_inv p s r : strip_prefix p s = Some r -> s = p ++ r.
Proof.
  revert s. induction p as [|a p IH]; intros s; simpl.
  - by intros [= ->].
  - destruct s as [|b s]; [done|].
    destruct (Ascii.eqb_spec a b) as [->|]; [|done].
    intros ->%IH. by rewrite append_cons.
Qed.

Section Span.
Context (stop : ascii -> bool).

(** [span] cuts where it says: the two parts make up the input, the
    first holds no stop character, the second is empty or starts with
    one. *)
Lemma span_spec s a b :
  span stop s = (a, b) ->
  s = a ++ b /\ none_of stop a = true /\ stops_at stop b = true.
Proof.
  revert a b. induction s as [|c s IH]; intros a b; simpl.
  - by intros [= <- <-].
  - destruct (stop c) eqn:Hc.
    + intros [= <- <-]. simpl. by rewrite Hc.
    + destruct (span stop s) as [a' b'].
      intros [= <- <-]. destruct (IH a' b' eq_refl) as (-> & Ha & Hb).
      simpl. by rewrite Hc, Ha.
Qed.

Lemma span_app a b :
  none_of stop a = true -> stops_at stop b = true ->
  span stop (a ++ b) = (a, b).
Proof.
  induction a as [|c a IH]; simpl.
  - intros _. destruct b as [|c b]; [done|]. simpl. by intros ->.
  - intros [Hc Ha]%andb_true_iff Hb. apply negb_true_iff in Hc.
    by rewrite Hc, (IH Ha Hb).
Qed.
End Span.

Lemma is_origin_inv s :
  is_origin s = true ->
  exists scheme auth, s = scheme ++ "://" ++ auth
    /\ http_scheme scheme = true
    /\ auth <> "" /\ none_of ends_authority auth = true.
Proof.
  unfold is_origin.
  destruct (span is_colon s) as [scheme r1] eqn:Hs.
  apply span_spec in Hs as (-> & _ & _).
  intros [Hsch Hr]%andb_true_iff.
  destruct (strip_prefix "://" r1) as [r2|] eqn:Hp; [|done].
  apply strip_prefix_inv in Hp as ->.
  destruct (span ends_authority r2) as [auth r3] eqn:Ha.
  apply span_spec in Ha as (-> & Hnone & _).
  apply andb_true_iff in Hr as [Hne Hr3].
  apply String.eqb_eq in Hr3 as ->.
  exists scheme, auth. rewrite append_nil_r. repeat split; try done.
  intros ->. done.
Qed.


(** Gluing an origin in front of a well-formed path and query gives a
    URL whose path and query are those very strings. *)
Lemma URL_parse_origin_append origin p q :
  is_origin origin = true ->
  well_formed_path p = true -> well_formed_search q = true ->
  exists u, URL_parse (origin ++ p ++ q) = Some u
       /\ origin = protocol u ++ "//" ++ authority u
       /\ pathname u = p /\ search u = q /\ hash u = "".
Proof.
  intros (scheme & auth & -> & Hsch & Hauth & Hnone)%is_origin_inv.
  intros [Hp1 Hp2]%andb_true_iff Hq.
  destruct p as [|c p]; [done|].
  assert (c = "/"%char) as -> by (by apply Ascii.eqb_eq in Hp1).
  unfold URL_parse.
  rewrite !append_assoc.
  assert (span is_colon (scheme ++ "://" ++ auth ++ String "/" p ++ q)
          = (scheme, "://" ++ auth ++ String "/" p ++ q)) as ->.
  { apply span_app; [|done].
    unfold http_scheme in Hsch.
    apply orb_true_iff in Hsch as [->%String.eqb_eq| ->%String.eqb_eq]; done. }
  rewrite Hsch. cbv [negb]. rewrite strip_prefix_app.
  assert (span ends_authority (auth ++ String "/" p ++ q)
          = (auth, String "/" p ++ q)) as ->.
  { by apply span_app. }
  apply String.eqb_neq in Hauth as ->.
  assert (span ends_path (String "/" p ++ q) = (String "/" p, q)) as ->.
  { apply span_app; [done|].
    destruct q as [|d q]; [done|]. simpl in *.
    apply andb_true_iff in Hq as [[->%Ascii.eqb_eq _]%andb_true_iff _]. done. }
  destruct q as [|d q].
  - eexists; split; [reflexivity|]. simpl. by rewrite append_assoc.
  - simpl in Hq.
    apply andb_true_iff in Hq as [[->%Ascii.eqb_eq Hne]%andb_true_iff Hh].
    rewrite Ascii.eqb_refl.
    pose proof (span_app is_hash q "" Hh eq_refl) as Hspan.
    rewrite append_nil_r in Hspan. rewrite Hspan.
    apply negb_true_iff in Hne. rewrite Hne.
    eexists; split; [reflexivity|]. simpl. by rewrite append_assoc.
Qed.

End JsFacts.

(* ================================================================== *)
(** ** Facts about the route handler *)
(* ================================================================== *)

Module RouteFacts.
Import Route Samples JsFacts.

Lemma bind_value {A B} (k : A -> M B) (m : M A) a t :
  m = (Value a, t) -> mbind k m = ((k a).1, (t ++ (k a).2)%list).
Proof. intros ->. unfold mbind, M_bind. by destruct (k a). Qed.

Section Blocks.
Context (env : Env) (w : World) (request : NextRequest).

Lemma check_environment_present :
  config_present env = true -> check_environment env = (Value tt, []).
Proof.
  unfold config_present, check_environment.
  destruct (truthy (env !! "GOOGLE_CLOUD_PROJECT_ID")); [|done].
  destruct (truthy (env !! "GOOGLE_CLOUD_BUCKET_NAME")); [|done].
  destruct (truthy (env !! "GOOGLE_CLOUD_KEY_FILE")); [done|].
  destruct (truthy (env !! "GOOGLE_CLOUD_CREDENTIALS")); done.
Qed.

Lemma check_environment_missing :
  config_present env = false ->
  exists msg, In msg config_errors /\
    check_environment env = (Returned (json_error msg None 500), []).
Proof.
  unfold config_present, check_environment, config_errors.
  destruct (truthy (env !! "GOOGLE_CLOUD_PROJECT_ID"));
    [|intros _; eexists; split; [|reflexivity]; simpl; tauto].
  destruct (truthy (env !! "GOOGLE_CLOUD_BUCKET_NAME"));
    [|intros _; eexists; split; [|reflexivity]; simpl; tauto].
  destruct (truthy (env !! "GOOGLE_CLOUD_KEY_FILE")); [done|].
  destruct (truthy (env !! "GOOGLE_CLOUD_CREDENTIALS")); [done|].
  intros _; eexists; split; [|reflexivity]; simpl; tauto.
Qed.

(** The three ways out of the client initialisation. *)
Lemma initialize_client_cases :
  (exists e, client_config env w = Throws e /\
        initialize_client env w
        = (Returned (json_error "Invalid Google Cloud credentials format"
                                None 500), []))
  \/ (exists cfg e, client_config env w = Ok cfg /\
        new_Storage w cfg = Throws e /\
        initialize_client env w
        = (Returned (json_error ("Failed to initialize Google Cloud Storage: "
                                 ++ message_or e "Unknown error") None 500),
           [EvNewStorage cfg (Throws e)]))
  \/ (exists cfg, client_config env w = Ok cfg /\
        new_Storage w cfg = Ok tt /\
        initialize_client env w = (Value cfg, [EvNewStorage cfg (Ok tt)])).
Proof.
  unfold initialize_client, client_config, try_catch, call, lift,
    mbind, M_bind, mret, M_ret.
  cbv beta iota zeta.
  destruct (truthy (env !! "GOOGLE_CLOUD_KEY_FILE")) eqn:Hk;
    [|destruct (truthy (env !! "GOOGLE_CLOUD_CREDENTIALS")) eqn:Hc;
      [destruct (JSON_parse w (template (env !! "GOOGLE_CLOUD_CREDENTIALS")))
         as [j|e] eqn:Hj; [|left; eauto]|]];
    cbv beta iota zeta;
    match goal with |- context [new_Storage w ?c] =>
      destruct (new_Storage w c) as [[]|e] eqn:Hn end;
    solve [right; right; eauto | right; left; eauto 6].
Qed.

(** Every call of the handler is one of the runs of [GET_run]. *)
Lemma GET_run_sound :
  GET_run env w request (GET env w request).1 (GET env w request).2.
Proof.
  unfold GET, GET_body.
  destruct (config_present env) eqn:Hcfg; cycle 1.
  { destruct (check_environment_missing Hcfg) as (msg & Hin & ->).
    by apply run_no_config. }
  rewrite (bind_value _ _ _ _ (check_environment_present Hcfg)).
  destruct (params_present request) eqn:Hpar; cycle 1.
  { unfold validate_parameters, return_if.
    unfold params_present in Hpar. rewrite <- negb_andb, Hpar.
    by apply run_bad_request. }
  assert (validate_parameters
            (searchParams_get (searchParams request) "directory")
            (searchParams_get (searchParams request) "filename")
          = (Value tt, [])) as Hv.
  { unfold validate_parameters, return_if.
    unfold params_present in Hpar. by rewrite <- negb_andb, Hpar. }
  rewrite (bind_value _ _ _ _ Hv).
  unfold import_package, try_catch at 1, call at 1.
  destruct (import_storage w) as [[]|e] eqn:Himp; cycle 1.
  { by apply run_no_package. }
  unfold mbind at 1, M_bind at 1. cbv beta iota zeta.
  destruct initialize_client_cases
    as [(e & Hc & ->)|[(cfg & e & Hc & Hn & ->)|(cfg & Hc & Hn & ->)]].
  { by apply (run_bad_credentials _ _ _ e). }
  { by apply run_no_client. }
  unfold mbind at 1, M_bind at 1. cbv beta iota zeta.
  fold (key request).
  unfold sign_file, try_catch, call, return_if, return_, rewrite_for_cdn,
    new_URL, mbind, M_bind, mret, M_ret.
  cbv beta iota zeta.
  fold (file_of env request cfg).
  destruct (file_exists w (file_of env request cfg)) as [[]|e] eqn:Hex;
    cbv beta iota zeta; cycle 1.
  { by apply run_not_found. }
  { by apply run_exists_error. }
  destruct (file_getSignedUrl w (file_of env request cfg) (sign_options w))
    as [signed|e] eqn:Hs; cbv beta iota zeta; cycle 1.
  { by apply run_sign_error. }
  destruct (truthy (env !! "GOOGLE_CLOUD_CDN_ENDPOINT")) eqn:Hcdn; cycle 1.
  { by apply run_direct. }
  destruct (URL_parse signed) as [u|] eqn:Hu; cbv beta iota zeta.
  - by apply (run_cdn _ _ _ cfg signed u).
  - by apply run_rewrite_error.
Qed.

End Blocks.

(** Case analysis on the run of a call. *)
Ltac runs env w request :=
  let Hrun := fresh "Hrun" in
  pose proof (GET_run_sound env w request) as Hrun;
  destruct (GET env w request) as [r t]; cbn [fst snd] in *;
  inversion Hrun; subst; clear Hrun.

Lemma params_present_false request :
  params_present request = false <->
  missing (searchParams_get (searchParams request) "directory")
  \/ missing (searchParams_get (searchParams request) "filename").
Proof.
  unfold params_present, missing.
  rewrite andb_false_iff, !truthy_false_iff. tauto.
Qed.

Lemma config_present_false env :
  config_present env = false <->
  missing (env !! "GOOGLE_CLOUD_PROJECT_ID")
  \/ missing (env !! "GOOGLE_CLOUD_BUCKET_NAME")
  \/ (missing (env !! "GOOGLE_CLOUD_KEY_FILE")
      /\ missing (env !! "GOOGLE_CLOUD_CREDENTIALS")).
Proof.
  unfold config_present, missing.
  rewrite !andb_false_iff, orb_false_iff, !truthy_false_iff. tauto.
Qed.

(** *** C6: configuration is checked first *)

(** C6.  When the project identifier, the bucket name, or both the
    key-file path and the inline credentials are missing (unset or
    empty), the handler answers 500 with one of the three configuration
    messages and no details; it makes no outside call at all (no import,
    no store contact), and its answer is the same whatever the request
    and whatever the world: the parameters are not looked at. *)
Theorem missing_configuration_fails_fast env w request :
  missing (env !! "GOOGLE_CLOUD_PROJECT_ID")
  \/ missing (env !! "GOOGLE_CLOUD_BUCKET_NAME")
  \/ (missing (env !! "GOOGLE_CLOUD_KEY_FILE")
      /\ missing (env !! "GOOGLE_CLOUD_CREDENTIALS")) ->
  exists msg,
    In msg config_errors
    /\ GET env w request = (json_error msg None 500, [])
    /\ forall w' request', GET env w' request' = GET env w request.
Proof.
  intros Hcfg%config_present_false.
  destruct (check_environment_missing env Hcfg) as (msg & Hin & Hce).
  exists msg. split; [done|].
  assert (forall w' request',
            GET env w' request' = (json_error msg None 500, [])) as Hall.
  { intros w' request'. unfold GET, GET_body. by rewrite Hce. }
  split; [apply Hall|]. intros w' request'. by rewrite !Hall.
Qed.

Lemma missing_configuration_fails_fast_witness :
  exists msg,
    In msg config_errors
    /\ GET env_empty world_ok request_thumbnail = (json_error msg None 500, [])
    /\ forall w' request',
         GET env_empty w' request' = GET env_empty world_ok request_thumbnail.
Proof.
  apply missing_configuration_fails_fast. left. left. reflexivity.
Defined.

(** *** C1: missing parameters *)

(** C1, as stated, fails: a request without [filename] is answered 500,
    not 400, when the configuration is missing. *)
Lemma missing_parameter_not_always_400 :
  ~ (forall env w request,
       missing (searchParams_get (searchParams request) "directory")
       \/ missing (searchParams_get (searchParams request) "filename") ->
       status (GET env w request).1 = 400).
Proof.
  intros H.
  specialize (H env_empty world_ok request_without_filename).
  assert (status (GET env_empty world_ok request_without_filename).1 = 500)
    as H500 by (vm_compute; reflexivity).
  rewrite H in H500; [discriminate|]. right. left. reflexivity.
Qed.

(** C1, amended.  When the required configuration is present and the
    [directory] or the [filename] query parameter is absent or empty,
    the handler answers 400 with the body
    [{ error: "Missing required parameters: directory and filename" }],
    whatever the other parameters and the world, and makes no outside
    call. *)
Theorem missing_parameter_is_400 env w request :
  config_present env = true ->
  missing (searchParams_get (searchParams request) "directory")
  \/ missing (searchParams_get (searchParams request) "filename") ->
  GET env w request
  = (json_error "Missing required parameters: directory and filename" None 400,
     []).
Proof.
  intros Hcfg Hpar%params_present_false.
  runs env w request; congruence.
Qed.

Lemma missing_parameter_is_400_witness :
  GET env_key_file world_ok request_without_filename
  = (json_error "Missing required parameters: directory and filename" None 400,
     []).
Proof.
  apply missing_parameter_is_400; [vm_compute; reflexivity|].
  right. left. reflexivity.
Defined.

(** *** C2: the success path *)




(** Store contact needs a complete configuration and both parameters:
    a run that checks or signs a file passed both tests. *)
Lemma store_contact_needs_config_and_params env w request e :
  In e (GET env w request).2 -> store_contact e = true ->
  config_present env = true /\ params_present request = true.
Proof.
  runs env w request; simpl; intros Hin Hc;
    intuition (subst; try discriminate).
Qed.

(** The keys of the sample requests. *)
Example key_samples :
  key request_thumbnail = "gallery/optimized/image1.jpg"
  /\ key request_original = "gallery/original/image1.jpg"
  /\ key request_upper_TRUE = "gallery/optimized/image1.jpg".
Proof. repeat split. Qed.

(** *** C3: the existence check precedes signing *)

(** C3.  In every run of the handler: (1) a signing call is made only
    after an existence check on the same file, the one at the computed
    key, has answered true; (2) every 200 answer carries a URL obtained
    by signing a file whose existence check answered true in that run;
    (3) when an existence check does not answer true (it answers false
    or fails), no signing call is made. *)
Theorem signing_follows_confirmed_existence env w request :
  (forall pre f o r post,
     (GET env w request).2 = (pre ++ EvGetSignedUrl f o r :: post)%list ->
     In (EvExists f (Ok true)) pre /\ name f = key request)
  /\ (status (GET env w request).1 = 200 ->
      exists f signed final,
        name f = key request
        /\ In (EvExists f (Ok true)) (GET env w request).2
        /\ In (EvGetSignedUrl f (sign_options w) (Ok signed))
              (GET env w request).2
        /\ payload (GET env w request).1 = UrlBody final)
  /\ (forall f r,
        In (EvExists f r) (GET env w request).2 -> r <> Ok true ->
        forall f' o r', ~ In (EvGetSignedUrl f' o r') (GET env w request).2).
Proof.
  split; [|split].
  - intros pre f o r' post.
    runs env w request; intros Heq;
      do 4 (destruct pre as [|? pre]; simplify_list_eq; try done);
      try (by destruct pre);
      (split; [simpl; tauto|reflexivity]).
  - runs env w request; intros Hst; try discriminate Hst.
    + exists (file_of env request cfg), signedUrl. eexists.
      split; [reflexivity|]. simpl. tauto.
    + exists (file_of env request cfg), signedUrl. eexists.
      split; [reflexivity|]. simpl. tauto.
  - intros f r'.
    runs env w request; simpl; intros Hin Hne f' o r'' Hsign;
      intuition (try discriminate; simplify_eq).
Qed.

Lemma signing_follows_confirmed_existence_witness :
  In (EvExists thumbnail_file (Ok true))
     [EvImport (Ok tt); EvNewStorage key_file_client (Ok tt);
      EvExists thumbnail_file (Ok true)]
  /\ name thumbnail_file = key request_thumbnail.
Proof.
  apply (proj1 (signing_follows_confirmed_existence
                  env_key_file world_ok request_thumbnail)
               _ thumbnail_file (sign_options world_ok)
               (Ok (signed_for thumbnail_file (sign_options world_ok))) []).
  vm_compute. reflexivity.
Defined.

(** *** C4: an absent object *)

(** C4.  When the existence check of a run answers false, the handler
    answers 404 with the body [{ error: "File not found: " + key }],
    where [key] is the name of the file checked:
    [directory/original/filename] when the [original] flag is set and
    [directory/optimized/filename] otherwise, [directory] and [filename]
    being the values of the two query parameters. *)
Theorem absent_object_is_404 env w request f :
  In (EvExists f (Ok false)) (GET env w request).2 ->
  exists directory filename,
    searchParams_get (searchParams request) "directory" = Some directory
    /\ searchParams_get (searchParams request) "filename" = Some filename
    /\ name f = directory ++ "/"
                ++ (if original_flag request then "original" else "optimized")
                ++ "/" ++ filename
    /\ (GET env w request).1
       = json_error ("File not found: " ++ name f) None 404.
Proof.
  runs env w request; simpl; intros Hin;
    intuition (try discriminate; simplify_eq).
  match goal with H : params_present request = true |- _ =>
    unfold params_present in H; apply andb_true_iff in H as [Hd Hf] end.
  apply truthy_Some in Hd as (d & Hd & _).
  apply truthy_Some in Hf as (fn & Hf & _).
  exists d, fn. repeat split; try done.
  unfold file_of, key, filePath. cbn [name]. by rewrite Hd, Hf.
Qed.

Lemma absent_object_is_404_witness :
  exists directory filename,
    searchParams_get (searchParams request_thumbnail) "directory"
      = Some directory
    /\ searchParams_get (searchParams request_thumbnail) "filename"
      = Some filename
    /\ name thumbnail_file
       = directory ++ "/"
         ++ (if original_flag request_thumbnail
             then "original" else "optimized")
         ++ "/" ++ filename
    /\ (GET env_key_file world_empty_bucket request_thumbnail).1
       = json_error ("File not found: " ++ name thumbnail_file) None 404.
Proof.
  apply absent_object_is_404. vm_compute. right. right. left. reflexivity.
Defined.

(** *** C10: the [original] flag *)

(** C10.  The flag is set exactly when the first value given for
    [original] is the string "true".  For every other value, and when
    the parameter is absent, the computed key lies under "optimized",
    and that key is the name of every file the handler checks or
    signs. *)
Theorem original_only_for_exact_true request :
  (original_flag request = true
   <-> searchParams_get (searchParams request) "original" = Some "true")
  /\ (searchParams_get (searchParams request) "original" <> Some "true" ->
      key request
      = template (searchParams_get (searchParams request) "directory")
        ++ "/optimized/"
        ++ template (searchParams_get (searchParams request) "filename"))
  /\ (forall env w f,
        (exists r, In (EvExists f r) (GET env w request).2)
        \/ (exists o r, In (EvGetSignedUrl f o r) (GET env w request).2) ->
        name f = key request).
Proof.
  split; [apply strict_eq_true|]. split.
  - intros Hne. unfold key, filePath.
    destruct (original_flag request) eqn:Hflag; [|reflexivity].
    by apply strict_eq_true in Hflag.
  - intros env w f.
    runs env w request; simpl; intros [[r' Hin]|(o & r' & Hin)];
      intuition (try discriminate; simplify_eq; reflexivity).
Qed.

Lemma original_only_for_exact_true_witness :
  key request_upper_TRUE
  = template (searchParams_get (searchParams request_upper_TRUE) "directory")
    ++ "/optimized/"
    ++ template (searchParams_get (searchParams request_upper_TRUE) "filename").
Proof.
  apply (proj1 (proj2 (original_only_for_exact_true request_upper_TRUE))).
  vm_compute. discriminate.
Defined.

(** Values that do not set the flag. *)
Example original_flag_samples :
  original_flag {| searchParams := [("original", "TRUE")] |} = false
  /\ original_flag {| searchParams := [("original", "1")] |} = false
  /\ original_flag {| searchParams := [("original", "false")] |} = false
  /\ original_flag {| searchParams := [("original", " true")] |} = false
  /\ original_flag {| searchParams := [] |} = false
  /\ original_flag {| searchParams := [("original", "false");
                                       ("original", "true")] |} = false
  /\ original_flag {| searchParams := [("original", "true")] |} = true.
Proof. repeat split. Qed.

(** *** C5: the CDN rewrite *)




(** The rewritten URL of the sample: path and query are those of the
    signed URL. *)
Example cdn_rewrite_sample :
  payload (GET env_cdn world_ok request_thumbnail).1
  = UrlBody "https://cdn.example.com/demo-bucket/gallery/optimized/image1.jpg?X-Goog-Algorithm=GOOG4-RSA-SHA256&X-Goog-Signature=5f2a"
  /\ payload (GET env_key_file world_ok request_thumbnail).1
  = UrlBody "https://storage.googleapis.com/demo-bucket/gallery/optimized/image1.jpg?X-Goog-Algorithm=GOOG4-RSA-SHA256&X-Goog-Signature=5f2a".
Proof. split; vm_compute; reflexivity. Qed.

End RouteFacts.

(* ================================================================== *)
(** ** Facts about the gallery component *)
(* ================================================================== *)

Module ClientFacts.
Import Client ClientSamples JsFacts.

(** *** One fetch *)

Lemma fetchSignedUrl_settles fetch filename original s :
  fetchSignedUrl fetch filename original s
  = let '(url, err, det) :=
      settle (fetch (length (requests s))
                    (signed_url_request filename original)) in
    (Ok url,
     {| ui := with_alert (ui s) err det;
        requests := requests s ++ [signed_url_request filename original] |}).
Proof.
  unfold fetchSignedUrl, settle, try_catch, fetch_, await, setError,
    setErrorDetails, modify, with_alert, mbind, C_bind, mret, C_ret.
  cbn [ui requests].
  destruct (fetch (length (requests s)) (signed_url_request filename original))
    as [response|e]; [|reflexivity].
  destruct (ok response); cbn [negb].
  - destruct (negb (truthy (content_type response))
              || negb (includes "application/json"
                                (template (content_type response))));
      [reflexivity|].
    destruct (parsed response) as [data|e]; [|reflexivity].
    cbn [ui requests].
    destruct (truthy (Data.error data)); [|reflexivity].
    destruct (truthy (Data.details data)); reflexivity.
  - destruct (parsed response) as [errorJson|e]; [|reflexivity].
    cbn [ui requests].
    destruct (truthy (Data.details errorJson)); reflexivity.
Qed.

(** *** C9: which error the alert shows *)


(** The same on the page itself: the first image fails to load, the user
    clicks "next", the second image fails too; the alert then shows the
    second failure. *)
Example alert_after_two_failures :
  let s1 := (in_render (loadOriginalImage network_two_errors) initial_store).2 in
  let s2 := (click_arrow network_two_errors next s1).2 in
  alert (ui s1) = Some ("File not found: gallery/original/image1.jpg", None)
  /\ alert (ui s2) = Some ("Storage operation failed: socket hang up",
                          Some "Error: socket hang up").
Proof. split; vm_compute; reflexivity. Qed.



(** *** C8: the thumbnail loop *)

(** While the render that created the effect had no error, the loop
    goes through the whole list: one request per file name, whatever the
    network answers. *)
Lemma thumbnails_loop_requests fetch render filenames urls s :
  truthy (error render) = false ->
  requests (thumbnails_loop fetch render filenames urls s).2
  = (requests s ++ map (λ f, signed_url_request f false) filenames)%list.
Proof.
  intros Hrender. revert urls s.
  induction filenames as [|filename rest IH]; intros urls s.
  - simpl. by rewrite app_nil_r.
  - cbn [thumbnails_loop]. unfold mbind, C_bind.
    rewrite fetchSignedUrl_settles.
    destruct (settle _) as [[url err] det].
    rewrite Hrender, IH. cbn [requests map].
    by rewrite <- app_assoc.
Qed.

(** The effect that loads the thumbnails sends one request per image,
    whatever the network answers. *)
Lemma mount_thumbnails_requests fetch :
  requests (mount_thumbnails fetch initial_store).2
  = map (λ f, signed_url_request f false) IMAGE_FILENAMES.
Proof.
  unfold mount_thumbnails, loadOptimizedImages, setLoading, setOptimizedUrls,
    modify, mbind, C_bind.
  cbn [fst snd ui requests initial_store].
  match goal with |- context [thumbnails_loop fetch ?r ?l ?u ?s] =>
    pose proof (thumbnails_loop_requests fetch r l u s eq_refl) as Hreq;
    destruct (thumbnails_loop fetch r l u s) as [[urls|e] s']
  end; cbn [fst snd ui requests] in *; exact Hreq.
Qed.

(** C8, on the code: the first thumbnail request fails and the four
    others succeed.  The claim says one request is sent and the slots of
    the four other images keep the spinner; the code sends all five
    requests and fills the four other slots.  ([error] in
    [if (error) break] is the variable of the first render, which is
    [null] for good.) *)
Theorem thumbnail_loop_goes_on_after_failure :
  let s := (mount_thumbnails network_first_fails initial_store).2 in
  (fetchSignedUrl network_first_fails "image1.jpg" false initial_store).1
  = Ok ""
  /\ requests s
     = ["/api/signed-url?directory=gallery&filename=image1.jpg&original=false";
        "/api/signed-url?directory=gallery&filename=image2.jpg&original=false";
        "/api/signed-url?directory=gallery&filename=image3.jpg&original=false";
        "/api/signed-url?directory=gallery&filename=image4.jpg&original=false";
        "/api/signed-url?directory=gallery&filename=image5.jpg&original=false"]
  /\ thumbnail_slot (ui s) "image1.jpg" = Spinner
  /\ thumbnail_slot (ui s) "image2.jpg"
     = Thumbnail "https://storage.googleapis.com/api/signed-url?directory=gallery&filename=image2.jpg&original=false"
  /\ thumbnail_slot (ui s) "image3.jpg"
     = Thumbnail "https://storage.googleapis.com/api/signed-url?directory=gallery&filename=image3.jpg&original=false"
  /\ thumbnail_slot (ui s) "image4.jpg"
     = Thumbnail "https://storage.googleapis.com/api/signed-url?directory=gallery&filename=image4.jpg&original=false"
  /\ thumbnail_slot (ui s) "image5.jpg"
     = Thumbnail "https://storage.googleapis.com/api/signed-url?directory=gallery&filename=image5.jpg&original=false".
Proof. repeat split; vm_compute; reflexivity. Qed.

(** *** C7: the carousel *)

(** On non-negative numbers the remainder of JavaScript is the
    mathematical one. *)
Lemma js_rem_mod a n : 0 <= a -> 0 < n -> js_rem a n = a mod n.
Proof. intros Ha Hn. unfold js_rem. by apply Z.rem_mod_nonneg. Qed.

Lemma wrap_next n i : 1 <= n -> 0 <= i < n ->
  js_rem (i + 1) n = (i + 1) mod n
  /\ (i = n - 1 -> js_rem (i + 1) n = 0)
  /\ 0 <= js_rem (i + 1) n < n.
Proof.
  intros Hn Hi. rewrite js_rem_mod by lia. split; [done|]. split.
  - intros ->. replace (n - 1 + 1) with n by lia. apply Z.mod_same. lia.
  - apply Z.mod_pos_bound. lia.
Qed.

Lemma wrap_prev n i : 1 <= n -> 0 <= i < n ->
  js_rem (i - 1 + n) n = (i - 1 + n) mod n
  /\ (i = 0 -> js_rem (i - 1 + n) n = n - 1)
  /\ 0 <= js_rem (i - 1 + n) n < n.
Proof.
  intros Hn Hi. rewrite js_rem_mod by lia. split; [done|]. split.
  - intros ->. replace (0 - 1 + n) with (n - 1) by lia.
    apply Z.mod_small. lia.
  - apply Z.mod_pos_bound. lia.
Qed.

(** C7.  The image list has N = 5 >= 1 entries.  For a current index i
    with 0 <= i < N, "next" sets the index to (i + 1) mod N and "prev"
    sets it to (i - 1 + N) mod N, and the selected image becomes the
    entry at the new index; in particular "next" from N - 1 gives 0 and
    "prev" from 0 gives N - 1. *)
Theorem navigateCarousel_wraps (render : state) (s : store) :
  let N := Z.of_nat (length IMAGE_FILENAMES) in
  let after d := ui (navigateCarousel render d s).2 in
  0 <= currentIndex render < N ->
  1 <= N
  /\ currentIndex (after next) = (currentIndex render + 1) mod N
  /\ currentIndex (after prev) = (currentIndex render - 1 + N) mod N
  /\ selectedImage (after next)
     = IMAGE_FILENAMES !! Z.to_nat ((currentIndex render + 1) mod N)
  /\ selectedImage (after prev)
     = IMAGE_FILENAMES !! Z.to_nat ((currentIndex render - 1 + N) mod N)
  /\ is_Some (selectedImage (after next))
  /\ is_Some (selectedImage (after prev))
  /\ (currentIndex render = N - 1 -> currentIndex (after next) = 0)
  /\ (currentIndex render = 0 -> currentIndex (after prev) = N - 1).
Proof.
  intros N after Hi.
  assert (1 <= N) as HN by (subst N; simpl; lia).
  destruct (wrap_next N (currentIndex render) HN Hi) as (Hn1 & Hn2 & Hn3).
  destruct (wrap_prev N (currentIndex render) HN Hi) as (Hp1 & Hp2 & Hp3).
  assert (forall j, 0 <= j < N ->
            array_get IMAGE_FILENAMES j = IMAGE_FILENAMES !! Z.to_nat j
            /\ is_Some (IMAGE_FILENAMES !! Z.to_nat j)) as Hget.
  { intros j Hj. unfold array_get.
    destruct (Z.ltb_spec j 0) as [|_]; [lia|]. split; [done|].
    apply lookup_lt_is_Some. subst N. lia. }
  subst after. unfold navigateCarousel, handleImageSelect, setSelectedImage,
    setCurrentIndex, modify, mbind, C_bind.
  cbn [fst snd ui requests currentIndex selectedImage]. fold N.
  destruct (Hget _ Hn3) as [Hgn Hsn]. destruct (Hget _ Hp3) as [Hgp Hsp].
  rewrite Hgn, Hgp, <- Hn1, <- Hp1. repeat split; try done; lia.
Qed.

Lemma navigateCarousel_wraps_witness :
  let N := Z.of_nat (length IMAGE_FILENAMES) in
  let after d := ui (navigateCarousel initial_state d initial_store).2 in
  1 <= N
  /\ currentIndex (after next) = (currentIndex initial_state + 1) mod N
  /\ currentIndex (after prev) = (currentIndex initial_state - 1 + N) mod N
  /\ selectedImage (after next)
     = IMAGE_FILENAMES !! Z.to_nat ((currentIndex initial_state + 1) mod N)
  /\ selectedImage (after prev)
     = IMAGE_FILENAMES !! Z.to_nat ((currentIndex initial_state - 1 + N) mod N)
  /\ is_Some (selectedImage (after next))
  /\ is_Some (selectedImage (after prev))
  /\ (currentIndex initial_state = N - 1 -> currentIndex (after next) = 0)
  /\ (currentIndex initial_state = 0 -> currentIndex (after prev) = N - 1).
Proof.
  apply (navigateCarousel_wraps initial_state initial_store).
  simpl. lia.
Defined.

(** The two ends of the carousel. *)
Example carousel_ends :
  currentIndex (ui (click_arrow network_first_fails prev initial_store).2) = 4
  /\ selectedImage (ui (click_arrow network_first_fails prev initial_store).2)
     = Some "image5.jpg"
  /\ currentIndex
       (ui (click_arrow network_first_fails next
              (click_arrow network_first_fails prev initial_store).2).2) = 0.
Proof. repeat split; vm_compute; reflexivity. Qed.

End ClientFacts.

(* ================================================================== *)
(** ** Further facts about the route handler *)
(* ================================================================== *)

Module RouteExtras.
Import Route Samples JsFacts RouteNotions.
Import RouteFacts.

(** X1.  The handler reads three query parameters and nothing else of
    the request: two requests whose first values for [directory],
    [filename] and [original] agree get the same answer after the same
    outside calls. *)
Theorem other_parameters_are_ignored env w (r1 r2 : NextRequest) :
  searchParams_get (searchParams r1) "directory"
  = searchParams_get (searchParams r2) "directory" ->
  searchParams_get (searchParams r1) "filename"
  = searchParams_get (searchParams r2) "filename" ->
  searchParams_get (searchParams r1) "original"
  = searchParams_get (searchParams r2) "original" ->
  GET env w r1 = GET env w r2.
Proof.
  intros Hd Hf Ho. unfold GET, GET_body, original_flag.
  by rewrite Hd, Hf, Ho.
Qed.

Lemma other_parameters_are_ignored_witness :
  GET env_key_file world_ok
      {| searchParams := [("utm", "x"); ("directory", "gallery");
                          ("filename", "image1.jpg"); ("original", "false");
                          ("directory", "other"); ("original", "true")] |}
  = GET env_key_file world_ok request_thumbnail.
Proof.
  apply other_parameters_are_ignored; reflexivity.
Defined.

(** X2.  A key file takes precedence over inline credentials: when
    [GOOGLE_CLOUD_KEY_FILE] is set, [JSON.parse] has no part in the
    answer (the inline credentials are never parsed), and every client
    is constructed with the project id, the key file and no
    credentials. *)
Theorem key_file_takes_precedence env w request :
  truthy (env !! "GOOGLE_CLOUD_KEY_FILE") = true ->
  (forall parse,
     GET env (with_JSON_parse w parse) request = GET env w request)
  /\ (forall cfg r,
        In (EvNewStorage cfg r) (GET env w request).2 ->
        cfg = {| projectId := env !! "GOOGLE_CLOUD_PROJECT_ID";
                 keyFilename := env !! "GOOGLE_CLOUD_KEY_FILE";
                 credentials := None |}).
Proof.
  intros Hk. split.
  - intros parse.
    unfold GET, GET_body, import_package, initialize_client, sign_file,
      rewrite_for_cdn, new_URL, sign_options.
    cbn [with_JSON_parse import_storage new_Storage file_exists
         file_getSignedUrl Date_now invalid_URL].
    by rewrite Hk.
  - intros cfg0 r0.
    runs env w request; simpl; intros Hin;
      intuition (try discriminate; simplify_eq);
      match goal with H : client_config env w = Ok _ |- _ =>
        unfold client_config in H; rewrite Hk in H; by injection H as <-
      end.
Qed.

Lemma key_file_takes_precedence_witness :
  (forall parse,
     GET env_key_file (with_JSON_parse world_ok parse) request_thumbnail
     = GET env_key_file world_ok request_thumbnail)
  /\ (forall cfg r,
        In (EvNewStorage cfg r)
           (GET env_key_file world_ok request_thumbnail).2 ->
        cfg = {| projectId := env_key_file !! "GOOGLE_CLOUD_PROJECT_ID";
                 keyFilename := env_key_file !! "GOOGLE_CLOUD_KEY_FILE";
                 credentials := None |}).
Proof.
  apply key_file_takes_precedence. vm_compute. reflexivity.
Defined.

(** X3.  Inline credentials that do not parse are reported as such: with
    the configuration and the parameters present, the package loaded, no
    key file and [JSON.parse] throwing on [GOOGLE_CLOUD_CREDENTIALS], the
    answer is 500 "Invalid Google Cloud credentials format" (not the
    message of missing credentials); no client is constructed and the
    store is not contacted. *)
Theorem unparsable_credentials_are_reported env w request e :
  config_present env = true ->
  params_present request = true ->
  import_storage w = Ok tt ->
  truthy (env !! "GOOGLE_CLOUD_KEY_FILE") = false ->
  JSON_parse w (template (env !! "GOOGLE_CLOUD_CREDENTIALS")) = Throws e ->
  GET env w request
  = (json_error "Invalid Google Cloud credentials format" None 500,
     [EvImport (Ok tt)]).
Proof.
  intros Hcfg Hpar Himp Hk Hj.
  assert (client_config env w = Throws e) as Hcc.
  { unfold client_config. rewrite Hk.
    unfold config_present in Hcfg. rewrite Hk, orb_false_l in Hcfg.
    apply andb_true_iff in Hcfg as [_ ->]. by rewrite Hj. }
  runs env w request; congruence.
Qed.

Lemma unparsable_credentials_are_reported_witness :
  GET env_inline_credentials world_ok request_thumbnail
  = (json_error "Invalid Google Cloud credentials format" None 500,
     [EvImport (Ok tt)]).
Proof.
  apply (unparsable_credentials_are_reported _ _ _
           (JsError "Unexpected token" None));
    vm_compute; reflexivity.
Defined.

(** X4.  The outside calls of a run are an initial part of: import,
    client construction, existence check, signing, in this order, each
    logged with the answer the world gave, the last two on the file at
    the computed key and the signing with version "v4", action "read"
    and [expires] one hour (3,600,000 ms) after [Date.now()].  A call
    that threw is the last one of its run: nothing is attempted after a
    failure. *)
Theorem call_log_shape env w request :
  (exists cfg, (GET env w request).2 `prefix_of` full_log env w request cfg)
  /\ (forall pre e post,
        (GET env w request).2 = (pre ++ e :: post)%list ->
        failed e = true -> post = []).
Proof.
  split.
  - unfold full_log.
    change {| version := "v4"; action := "read";
              expires := Date_now w + 3600000 |} with (sign_options w).
    runs env w request;
      first [ match goal with c : storageConfig |- _ => exists c end
            | exists {| projectId := None; keyFilename := None;
                        credentials := None |} ];
      repeat match goal with
             | H : import_storage _ = _ |- _ => rewrite H; clear H
             | H : new_Storage _ _ = _ |- _ => rewrite H; clear H
             | H : file_exists _ _ = _ |- _ => rewrite H; clear H
             | H : file_getSignedUrl _ _ _ = _ |- _ => rewrite H; clear H
             end;
      by eexists.
  - intros pre e0 post.
    runs env w request; intros Heq Hfail;
      do 4 (destruct pre as [|? pre]; simplify_list_eq; try done);
      by destruct pre.
Qed.

Lemma call_log_shape_witness :
  [] = ([] : list event).
Proof.
  apply (proj2 (call_log_shape env_key_file world_store_down request_thumbnail)
               [EvImport (Ok tt); EvNewStorage key_file_client (Ok tt)]
               (EvExists thumbnail_file
                  (Throws (JsError "getaddrinfo ENOTFOUND storage.googleapis.com"
                                   (Some "Error: getaddrinfo ENOTFOUND"))))
               []).
  - vm_compute. reflexivity.
  - reflexivity.
Defined.

(** X5.  Every answer is JSON with status 200, 400, 404 or 500.  The
    status is 200 exactly when the body is [{ signedUrl }]; an error
    body carries [details] only with status 500. *)
Theorem answer_classes env w request :
  content_type (GET env w request).1 = "application/json"
  /\ In (status (GET env w request).1) [200; 400; 404; 500]
  /\ (status (GET env w request).1 = 200
      <-> exists url, payload (GET env w request).1 = UrlBody url)
  /\ (forall msg d,
        payload (GET env w request).1 = ErrorBody msg (Some d) ->
        status (GET env w request).1 = 500).
Proof.
  runs env w request; simpl;
    (split; [reflexivity|]); (split; [tauto|]);
    (split; [split; [try discriminate; eauto|intros [? ?]; done]|]);
    intros m d Hd; try reflexivity; discriminate Hd.
Qed.

(** X6.  When the existence check or the signing call throws, the
    answer is 500 with the error "Storage operation failed: " followed
    by the message of the thrown [Error] ("Unknown storage error" for
    any other thrown value), and with its stack as [details]. *)
Theorem store_failure_is_reported env w request f e :
  In (EvExists f (Throws e)) (GET env w request).2
  \/ (exists o, In (EvGetSignedUrl f o (Throws e)) (GET env w request).2) ->
  (GET env w request).1
  = NextResponse_json
      (ErrorBody ("Storage operation failed: "
                  ++ message_or e "Unknown storage error")
                 (stack_of e)) 500.
Proof.
  runs env w request; simpl; intros [Hin|[o Hin]];
    intuition (try discriminate; simplify_eq; reflexivity).
Qed.

Lemma store_failure_is_reported_witness :
  (GET env_key_file world_store_down request_thumbnail).1
  = NextResponse_json
      (ErrorBody ("Storage operation failed: "
                  ++ message_or
                       (JsError "getaddrinfo ENOTFOUND storage.googleapis.com"
                                (Some "Error: getaddrinfo ENOTFOUND"))
                       "Unknown storage error")
                 (stack_of
                    (JsError "getaddrinfo ENOTFOUND storage.googleapis.com"
                             (Some "Error: getaddrinfo ENOTFOUND")))) 500.
Proof.
  apply (store_failure_is_reported _ _ _ thumbnail_file).
  left. vm_compute. do 2 right. left. reflexivity.
Defined.

(** *** The object key *)

Lemma none_of_slash_app a b : none_of is_slash (a ++ String "/" b) = false.
Proof.
  induction a as [|c a IH]; [reflexivity|].
  rewrite append_cons. simpl. by rewrite IH, andb_false_r.
Qed.

(** A string is cut in one way only at its last "/". *)
Lemma last_slash_unique a a' b b' :
  none_of is_slash b = true -> none_of is_slash b' = true ->
  a ++ String "/" b = a' ++ String "/" b' -> a = a' /\ b = b'.
Proof.
  intros Hb Hb'. revert a'.
  induction a as [|c a IH]; intros [|c' a'] Heq.
  - by injection Heq as ->.
  - injection Heq as <- ->. by rewrite none_of_slash_app in Hb.
  - injection Heq as -> <-. by rewrite none_of_slash_app in Hb'.
  - injection Heq as -> Heq. by destruct (IH _ Heq) as [-> ->].
Qed.

(** X7.  Two requests whose file names hold no "/" designate the same
    object key only if they have the same directory, the same file name
    and the same [original] flag. *)
Theorem same_key_same_reference (r1 r2 : NextRequest) d1 f1 d2 f2 :
  searchParams_get (searchParams r1) "directory" = Some d1 ->
  searchParams_get (searchParams r1) "filename" = Some f1 ->
  searchParams_get (searchParams r2) "directory" = Some d2 ->
  searchParams_get (searchParams r2) "filename" = Some f2 ->
  none_of is_slash f1 = true -> none_of is_slash f2 = true ->
  key r1 = key r2 ->
  d1 = d2 /\ f1 = f2 /\ original_flag r1 = original_flag r2.
Proof.
  intros Hd1 Hf1 Hd2 Hf2 Hs1 Hs2. unfold key, filePath.
  rewrite Hd1, Hf1, Hd2, Hf2. cbn [template].
  set (s1 := if original_flag r1 then "original" else "optimized").
  set (s2 := if original_flag r2 then "original" else "optimized").
  intros Heq.
  assert ((d1 ++ String "/" s1) ++ String "/" f1
          = (d2 ++ String "/" s2) ++ String "/" f2)
    as Heq' by (rewrite !append_assoc; exact Heq).
  apply last_slash_unique in Heq' as [Hds ->]; [|done..].
  apply last_slash_unique in Hds as [-> Hsub].
  - repeat split. subst s1 s2.
    by destruct (original_flag r1), (original_flag r2).
  - subst s1. by destruct (original_flag r1).
  - subst s2. by destruct (original_flag r2).
Qed.

Lemma same_key_same_reference_witness :
  "gallery" = "gallery" /\ "image1.jpg" = "image1.jpg"
  /\ original_flag request_thumbnail = original_flag request_upper_TRUE.
Proof.
  apply (same_key_same_reference request_thumbnail request_upper_TRUE);
    reflexivity.
Defined.

(** With a "/" in the file name two different references can share a
    key. *)
Example keys_collide_with_slashes :
  key {| searchParams := [("directory", "a");
                          ("filename", "optimized/b")] |}
  = key {| searchParams := [("directory", "a/optimized");
                            ("filename", "b")] |}.
Proof. reflexivity. Qed.

End RouteExtras.

(* ================================================================== *)
(** ** From the request of the client to the key of the handler *)
(* ================================================================== *)

Module WireFacts.
Import Route Client Wire JsFacts.

#[local] Arguments String.append : simpl nomatch.

Lemma none_of_app stop a b :
  none_of stop (a ++ b) = none_of stop a && none_of stop b.
Proof.
  induction a as [|c a IH]; [reflexivity|].
  rewrite append_cons. simpl. by rewrite IH, andb_assoc.
Qed.

Lemma none_of_impl (stop stop' : ascii -> bool) s :
  (forall c, stop' c = true -> stop c = true) ->
  none_of stop s = true -> none_of stop' s = true.
Proof.
  intros Himp. induction s as [|c s IH]; [done|]. simpl.
  intros [Hc Hs]%andb_true_iff. rewrite (IH Hs), andb_true_r.
  apply negb_true_iff in Hc. apply negb_true_iff.
  destruct (stop' c) eqn:E; [|done]. by rewrite (Himp _ E) in Hc.
Qed.

(** The characters that structure a URL are not safe characters. *)
Lemma reserved_is_unsafe c :
  is_ampersand c = true \/ is_equals c = true \/ is_hash c = true ->
  unsafe_char c = true.
Proof.
  unfold is_ampersand, is_equals, is_hash.
  rewrite !Ascii.eqb_eq. by intros [->|[->| ->]].
Qed.

Lemma split_on_none sep s :
  none_of (λ c, Ascii.eqb c sep) s = true -> split_on sep s = [s].
Proof.
  induction s as [|c s IH]; [done|]. simpl.
  intros [Hc Hs]%andb_true_iff. apply negb_true_iff in Hc.
  by rewrite Hc, (IH Hs).
Qed.

Lemma split_on_app sep a b :
  none_of (λ c, Ascii.eqb c sep) a = true ->
  split_on sep (a ++ String sep b) = a :: split_on sep b.
Proof.
  induction a as [|c a IH].
  - intros _. change ("" ++ String sep b) with (String sep b).
    simpl. by rewrite Ascii.eqb_refl.
  - simpl. intros [Hc Ha]%andb_true_iff. apply negb_true_iff in Hc.
    by rewrite Hc, (IH Ha).
Qed.

(** X8.  The request [fetchSignedUrl] sends for a non-empty file name
    made of letters, digits, ".", "_" and "-" reaches the handler, on
    any http(s) origin, with exactly the parameters [directory] =
    "gallery", [filename] = the file name and [original] = "true" or
    "false"; both required parameters are present, the flag the handler
    reads is the one the client passed, and the key computed is
    [gallery/original/filename] or [gallery/optimized/filename]
    accordingly. *)
Theorem client_request_designates_key origin filename original :
  is_origin origin = true ->
  safe_name filename = true ->
  filename <> "" ->
  exists request,
    request_of (origin ++ signed_url_request filename original) = Some request
    /\ searchParams request
       = [("directory", "gallery"); ("filename", filename);
          ("original", string_of_bool original)]
    /\ params_present request = true
    /\ original_flag request = original
    /\ key request
       = "gallery/" ++ (if original then "original" else "optimized")
         ++ "/" ++ filename.
Proof.
  intros Horigin Hsafe Hne.
  assert (none_of is_ampersand filename = true) as Hamp.
  { apply (none_of_impl unsafe_char); [|done].
    intros c Hc. apply reserved_is_unsafe. by left. }
  assert (none_of is_hash filename = true) as Hhash.
  { apply (none_of_impl unsafe_char); [|done].
    intros c Hc. apply reserved_is_unsafe. by right; right. }
  set (b := string_of_bool original).
  set (query := "directory=gallery&filename=" ++ filename
                ++ "&original=" ++ b).
  destruct (URL_parse_origin_append origin "/api/signed-url"
              (String "?" query) Horigin eq_refl)
    as (u & Hu & _ & _ & Hsearch & _).
  { subst query. simpl. rewrite none_of_app, Hhash.
    subst b. by destruct original. }
  assert (URLSearchParams (String "?" query)
          = [("directory", "gallery"); ("filename", filename);
             ("original", b)]) as Hpairs.
  { unfold URLSearchParams. cbn [Ascii.eqb Bool.eqb].
    change query with ("directory=gallery"
                       ++ String "&" (("filename=" ++ filename)
                                      ++ String "&" ("original=" ++ b))) at 1.
    { rewrite (split_on_app "&" "directory=gallery") by reflexivity.
      rewrite (split_on_app "&" ("filename=" ++ filename)) by exact Hamp.
      rewrite split_on_none by (subst b; by destruct original).
      subst b. by destruct original. } }
  exists {| searchParams := URLSearchParams (search u) |}.
  split.
  { unfold request_of.
    change (origin ++ signed_url_request filename original)
      with (origin ++ "/api/signed-url" ++ String "?" query).
    by rewrite Hu. }
  rewrite Hsearch, Hpairs. split; [done|].
  assert (truthy (Some filename) = true) as Htruthy.
  { simpl. by apply negb_true_iff, String.eqb_neq. }
  split; [|split].
  - unfold params_present. cbn [searchParams searchParams_get String.eqb
      Ascii.eqb Bool.eqb]. by rewrite Htruthy.
  - unfold original_flag. subst b. by destruct original.
  - unfold key, filePath, original_flag. subst b. by destruct original.
Qed.

Lemma client_request_designates_key_witness :
  exists request,
    request_of ("http://localhost:3000"
                ++ signed_url_request "image2.jpg" true) = Some request
    /\ searchParams request
       = [("directory", "gallery"); ("filename", "image2.jpg");
          ("original", string_of_bool true)]
    /\ params_present request = true
    /\ original_flag request = true
    /\ key request = "gallery/" ++ "original" ++ "/" ++ "image2.jpg".
Proof.
  apply (client_request_designates_key "http://localhost:3000" "image2.jpg" true);
    [reflexivity|reflexivity|discriminate].
Defined.

(** A file name with an "&" does not survive the trip: the handler reads
    another file name and another flag. *)
Example ampersand_in_file_name :
  (λ request, (searchParams_get (searchParams request) "filename",
               original_flag request))
    <$> request_of ("http://localhost:3000"
                    ++ signed_url_request "a&original=true" false)
  = Some (Some "a", true).
Proof. vm_compute. reflexivity. Qed.

End WireFacts.

(* ================================================================== *)
(** ** Further facts about the gallery component *)
(* ================================================================== *)

Module ClientExtras.
Import Client ClientSamples ClientNotions Page JsFacts.
Import ClientFacts.

(** *** [fetchSignedUrl], branch by branch *)

(** X9.  [fetchSignedUrl] returns a non-empty URL only for an answer
    that is ok, is labelled "application/json", parses, and reports no
    error; the URL is then the [signedUrl] of the body.  In every other
    case it returns the empty string. *)
Theorem url_only_from_ok_json_answer fetch filename original s url :
  (fetchSignedUrl fetch filename original s).1 = Ok url ->
  url <> "" ->
  exists response data,
    fetch (length (requests s)) (signed_url_request filename original)
    = Ok response
    /\ ok response = true
    /\ truthy (content_type response) = true
    /\ includes "application/json" (template (content_type response)) = true
    /\ parsed response = Ok data
    /\ truthy (Data.error data) = false
    /\ url = Data.signedUrl data.
Proof.
  rewrite fetchSignedUrl_settles. unfold settle.
  destruct (fetch _ _) as [response|e] eqn:Hfetch; [|by intros [= <-]].
  destruct (ok response) eqn:Hok; cbn [negb]; cycle 1.
  { destruct (parsed response); by intros [= <-]. }
  destruct (truthy (content_type response)) eqn:Hct; cbn [negb orb];
    [|by intros [= <-]].
  destruct (includes _ _) eqn:Hinc; cbn [negb]; [|by intros [= <-]].
  destruct (parsed response) as [data|e] eqn:Hparsed; [|by intros [= <-]].
  destruct (truthy (Data.error data)) eqn:Herr; [by intros [= <-]|].
  intros [= <-] _. by exists response, data.
Qed.

Lemma url_only_from_ok_json_answer_witness :
  exists response data,
    network_first_fails (length (requests (fetchSignedUrl network_first_fails "image1.jpg" false initial_store).2))
      (signed_url_request "image2.jpg" false)
    = Ok response
    /\ ok response = true
    /\ truthy (content_type response) = true
    /\ includes "application/json" (template (content_type response)) = true
    /\ parsed response = Ok data
    /\ truthy (Data.error data) = false
    /\ "https://storage.googleapis.com/api/signed-url?directory=gallery&filename=image2.jpg&original=false"
       = Data.signedUrl data.
Proof.
  apply (url_only_from_ok_json_answer network_first_fails "image2.jpg" false
           (fetchSignedUrl network_first_fails "image1.jpg" false
              initial_store).2).
  - vm_compute. reflexivity.
  - discriminate.
Defined.



(** The alert for a gateway error page. *)
Example gateway_error_alert :
  alert (ui (fetchSignedUrl (network_always gateway_response)
               "image1.jpg" false initial_store).2)
  = Some ("Server error: 502 - Bad Gateway", None).
Proof. vm_compute. reflexivity. Qed.





(** *** The two effects *)

Lemma settle_delivers answer url :
  delivers answer url <-> (settle answer).1.1 = url /\ url <> "".
Proof.
  unfold delivers, settle, reads_json. split.
  - intros (Hne & response & data & -> & Hok & Hjson & Hparsed & Herr & <-).
    rewrite Hok in *. cbn [negb orb] in *.
    apply andb_true_iff in Hjson as [-> ->]. cbn [negb orb].
    by rewrite Hparsed, Herr.
  - intros [Hurl Hne]. split; [done|].
    destruct answer as [response|e]; [|by subst].
    destruct (ok response) eqn:Hok; cbn [negb orb] in *; cycle 1.
    { destruct (parsed response); by subst. }
    destruct (truthy (content_type response)) eqn:Hct; cbn [negb orb] in *;
      [|by subst].
    destruct (includes _ _) eqn:Hinc; cbn [negb] in *; [|by subst].
    destruct (parsed response) as [data|e] eqn:Hparsed; [|by subst].
    destruct (truthy (Data.error data)) eqn:Herr; [by subst|].
    exists response, data. by rewrite Hok, Hct, Hinc.
Qed.


Lemma IMAGE_FILENAMES_NoDup : NoDup IMAGE_FILENAMES.
Proof. apply (bool_decide_unpack _). vm_compute. exact I. Qed.



(** [loadOriginalImage] on a selected image, in one step. *)
Lemma loadOriginalImage_runs fetch render s filename :
  selectedImage render = Some filename -> filename <> "" ->
  loadOriginalImage fetch render s
  = let '(url, err, det) :=
      settle (fetch (length (requests s))
                    (signed_url_request filename true)) in
    (Ok tt,
     {| ui := {| selectedImage := selectedImage (ui s);
                 currentIndex := currentIndex (ui s);
                 optimizedUrls := optimizedUrls (ui s);
                 originalUrl := url;
                 loading := loading (ui s);
                 originalLoading := false;
                 error := err;
                 errorDetails := det |};
        requests := requests s ++ [signed_url_request filename true] |}).
Proof.
  intros Hsel Hne. unfold loadOriginalImage. rewrite Hsel.
  assert (truthy (Some filename) = true) as ->.
  { simpl. by apply negb_true_iff, String.eqb_neq. }
  cbn [negb template]. unfold setOriginalLoading, setOriginalUrl, modify,
    mbind, C_bind.
  rewrite fetchSignedUrl_settles. cbn [ui requests].
  by destruct (settle _) as [[url err] det].
Qed.

(** What the main area shows once [loadOriginalImage] is done. *)
Lemma loadOriginalImage_shows fetch render s filename :
  selectedImage render = Some filename -> filename <> "" ->
  let s' := (loadOriginalImage fetch render s).2 in
  let answer := fetch (length (requests s))
                      (signed_url_request filename true) in
  requests s' = (requests s ++ [signed_url_request filename true])%list
  /\ main_area (ui s') <> LoadingOriginal
  /\ (forall url,
        main_area (ui s') = OriginalImage url <-> delivers answer url)
  /\ (main_area (ui s') = FailedToLoad
      <-> forall url, ~ delivers answer url).
Proof.
  intros Hsel Hne s' answer. subst s'.
  rewrite (loadOriginalImage_runs _ _ _ _ Hsel Hne). fold answer.
  assert (forall url, delivers answer url
                      <-> (settle answer).1.1 = url /\ url <> "") as Hdel.
  { intros url. apply settle_delivers. }
  destruct (settle answer) as [[url0 err] det]. cbn [fst snd] in *.
  unfold main_area. cbn [ui requests originalLoading originalUrl].
  unfold truthy_string.
  split; [reflexivity|].
  destruct (String.eqb_spec url0 "") as [Hempty|Hfull]; cbn [negb];
    (split; [done|]).
  - split.
    + intros url. rewrite Hdel. split; [done|]. intros [<- ?]. done.
    + split; [|done]. intros _ url. rewrite Hdel. intros [<- ?]. done.
  - split.
    + intros url. rewrite Hdel. split.
      * by intros [= <-].
      * by intros [<- _].
    + split; [done|]. intros Hnone. exfalso.
      apply (Hnone url0), Hdel. done.
Qed.

(** X14.  The effect that loads the full-resolution image does nothing
    when no image is selected.  Otherwise it sends exactly one request,
    for the selected image with [original=true], and when it is done the
    main area is never left loading: it shows the image exactly when the
    answer delivered a URL, which it then shows, and "Failed to load
    image" otherwise. *)
Theorem original_image_effect fetch render s :
  (truthy (selectedImage render) = false ->
   loadOriginalImage fetch render s = (Ok tt, s))
  /\ (forall filename,
        selectedImage render = Some filename -> filename <> "" ->
        let s' := (loadOriginalImage fetch render s).2 in
        let answer := fetch (length (requests s))
                            (signed_url_request filename true) in
        requests s' = (requests s ++ [signed_url_request filename true])%list
        /\ main_area (ui s') <> LoadingOriginal
        /\ (forall url,
              main_area (ui s') = OriginalImage url <-> delivers answer url)
        /\ (main_area (ui s') = FailedToLoad
            <-> forall url, ~ delivers answer url)).
Proof.
  split.
  { intros Hsel. unfold loadOriginalImage. by rewrite Hsel. }
  intros filename Hsel Hne. by apply loadOriginalImage_shows.
Qed.

Lemma original_image_effect_witness :
  let s' := (loadOriginalImage network_first_fails initial_state
               initial_store).2 in
  let answer := network_first_fails (length (requests initial_store))
                  (signed_url_request "image1.jpg" true) in
  requests s'
  = (requests initial_store ++ [signed_url_request "image1.jpg" true])%list
  /\ main_area (ui s') <> LoadingOriginal
  /\ (forall url,
        main_area (ui s') = OriginalImage url <-> delivers answer url)
  /\ (main_area (ui s') = FailedToLoad
      <-> forall url, ~ delivers answer url).
Proof.
  apply (proj2 (original_image_effect network_first_fails initial_state
                  initial_store) "image1.jpg");
    [reflexivity|discriminate].
Defined.

(** *** Selection and navigation *)

Lemma consistent_cases (st : state) :
  consistent st ->
  (currentIndex st = 0 /\ selectedImage st = Some "image1.jpg")
  \/ (currentIndex st = 1 /\ selectedImage st = Some "image2.jpg")
  \/ (currentIndex st = 2 /\ selectedImage st = Some "image3.jpg")
  \/ (currentIndex st = 3 /\ selectedImage st = Some "image4.jpg")
  \/ (currentIndex st = 4 /\ selectedImage st = Some "image5.jpg").
Proof.
  intros [Hrange Hsel]. cbn [length IMAGE_FILENAMES] in Hrange.
  assert (currentIndex st = 0 \/ currentIndex st = 1 \/ currentIndex st = 2
          \/ currentIndex st = 3 \/ currentIndex st = 4) as Hi by lia.
  destruct Hi as [Hi|[Hi|[Hi|[Hi|Hi]]]]; rewrite Hi in Hsel; tauto.
Qed.

(** X15.  The selection stays consistent: in the first render, and
    after a click on an arrow or on a thumbnail made in a render where
    it was consistent, the current index lies inside the image list and
    the selected image is the entry at that index. *)
Theorem selection_stays_consistent :
  consistent initial_state
  /\ (forall render d s,
        consistent render -> consistent (ui (navigateCarousel render d s).2))
  /\ (forall index s,
        consistent (ui s) ->
        consistent (ui (click_thumbnail_handler index s).2)).
Proof.
  split; [|split].
  - split; [simpl; lia|reflexivity].
  - intros render d s Hc.
    destruct (consistent_cases _ Hc) as [[Hi _]|[[Hi _]|[[Hi _]|[[Hi _]|[Hi _]]]]];
      unfold navigateCarousel; rewrite Hi;
      destruct d; split;
        first [ reflexivity
              | vm_compute; split; [discriminate|reflexivity] ].
  - intros index s Hc. unfold click_thumbnail_handler.
    destruct (IMAGE_FILENAMES !! index) as [filename|] eqn:Hidx; [|done].
    pose proof (lookup_lt_Some _ _ _ Hidx) as Hlt.
    unfold handleImageSelect, setSelectedImage, setCurrentIndex, modify,
      mbind, C_bind, consistent.
    cbn [fst snd ui currentIndex selectedImage].
    rewrite Nat2Z.id, Hidx. split; [lia|done].
Qed.

Lemma selection_stays_consistent_witness :
  consistent (ui (navigateCarousel initial_state prev initial_store).2).
Proof.
  apply (proj1 (proj2 selection_stays_consistent) initial_state prev
               initial_store).
  apply (proj1 selection_stays_consistent).
Defined.

(** X16.  From a consistent selection, an arrow always selects another
    image, and the two arrows undo each other: "next" followed by "prev",
    and "prev" followed by "next", give back the index and the image
    selected before. *)
Theorem arrows_undo_each_other render s s' :
  consistent render ->
  let after d := ui (navigateCarousel render d s).2 in
  let back d d' := ui (navigateCarousel (after d) d' s').2 in
  selectedImage (after next) <> selectedImage render
  /\ selectedImage (after prev) <> selectedImage render
  /\ currentIndex (back next prev) = currentIndex render
  /\ selectedImage (back next prev) = selectedImage render
  /\ currentIndex (back prev next) = currentIndex render
  /\ selectedImage (back prev next) = selectedImage render.
Proof.
  intros Hc after back. subst after back.
  destruct (consistent_cases _ Hc)
    as [[Hi Hs]|[[Hi Hs]|[[Hi Hs]|[[Hi Hs]|[Hi Hs]]]]];
    unfold navigateCarousel, handleImageSelect, setSelectedImage,
      setCurrentIndex, modify, mbind, C_bind;
    cbn [fst snd ui currentIndex selectedImage];
    rewrite Hi, Hs; repeat split; (discriminate || reflexivity).
Qed.

Lemma arrows_undo_each_other_witness :
  let after d := ui (navigateCarousel initial_state d initial_store).2 in
  let back d d' := ui (navigateCarousel (after d) d' initial_store).2 in
  selectedImage (after next) <> selectedImage initial_state
  /\ selectedImage (after prev) <> selectedImage initial_state
  /\ currentIndex (back next prev) = currentIndex initial_state
  /\ selectedImage (back next prev) = selectedImage initial_state
  /\ currentIndex (back prev next) = currentIndex initial_state
  /\ selectedImage (back prev next) = selectedImage initial_state.
Proof.
  apply (arrows_undo_each_other initial_state initial_store initial_store).
  split; [simpl; lia|reflexivity].
Defined.

(** X17.  A click on an arrow, made with a consistent selection,
    selects another image of the list and sends exactly one request: the
    one for that image with [original=true].  Afterwards the selection is
    consistent again and the main area shows that image exactly when the
    answer delivered a URL. *)
Theorem arrow_click_loads_the_new_image fetch d s :
  consistent (ui s) ->
  let s' := (click_arrow fetch d s).2 in
  exists filename,
    selectedImage (ui s') = Some filename
    /\ selectedImage (ui s') <> selectedImage (ui s)
    /\ consistent (ui s')
    /\ requests s' = (requests s ++ [signed_url_request filename true])%list
    /\ (forall url,
          main_area (ui s') = OriginalImage url
          <-> delivers (fetch (length (requests s))
                              (signed_url_request filename true)) url).
Proof.
  intros Hc s'. subst s'.
  unfold click_arrow, in_render, mbind, C_bind.
  destruct (navigateCarousel (ui s) d s) as [res s1] eqn:Hnav.
  assert (res = Ok tt /\ requests s1 = requests s
          /\ consistent (ui s1)
          /\ selectedImage (ui s1) <> selectedImage (ui s)
          /\ exists filename, selectedImage (ui s1) = Some filename
                              /\ filename <> "")
    as (-> & Hreq & Hc1 & Hchg & filename & Hsel & Hne).
  { destruct (consistent_cases _ Hc)
      as [[Hi Hs]|[[Hi Hs]|[[Hi Hs]|[[Hi Hs]|[Hi Hs]]]]];
      unfold navigateCarousel, handleImageSelect, setSelectedImage,
        setCurrentIndex, modify, mbind, C_bind in Hnav;
      rewrite Hi in Hnav; destruct d; injection Hnav as <- <-;
      cbn [ui requests selectedImage currentIndex]; rewrite Hs;
      (split; [reflexivity|]); (split; [reflexivity|]);
      (split; [split; [vm_compute; split; [discriminate|reflexivity]
                      |reflexivity]|]);
      (split; [discriminate|]); eexists; (split; [reflexivity|discriminate]). }
  destruct (loadOriginalImage_shows fetch (ui s1) s1 filename Hsel Hne)
    as (Hreq' & _ & Hshow & _).
  pose proof (loadOriginalImage_runs fetch (ui s1) s1 filename Hsel Hne)
    as Hruns.
  destruct (settle _) as [[url0 err] det] in Hruns.
  exists filename. rewrite Hreq in *.
  rewrite Hruns in *. cbn [fst snd ui requests selectedImage] in *.
  split; [exact Hsel|]. split; [exact Hchg|]. split; [exact Hc1|].
  split; [reflexivity|]. exact Hshow.
Qed.

Lemma arrow_click_loads_the_new_image_witness :
  let s' := (click_arrow network_first_fails next initial_store).2 in
  exists filename,
    selectedImage (ui s') = Some filename
    /\ selectedImage (ui s') <> selectedImage (ui initial_store)
    /\ consistent (ui s')
    /\ requests s'
       = (requests initial_store ++ [signed_url_request filename true])%list
    /\ (forall url,
          main_area (ui s') = OriginalImage url
          <-> delivers (network_first_fails (length (requests initial_store))
                          (signed_url_request filename true)) url).
Proof.
  apply (arrow_click_loads_the_new_image network_first_fails next
           initial_store).
  split; [simpl; lia|reflexivity].
Defined.

Lemma IMAGE_FILENAMES_nonempty index filename :
  IMAGE_FILENAMES !! index = Some filename -> filename <> "".
Proof.
  intros Hidx.
  assert (Forall (λ f, f <> "") IMAGE_FILENAMES) as Hall
    by (repeat constructor; discriminate).
  by apply (Forall_lookup_1 _ _ _ _ Hall Hidx).
Qed.

(** X18.  A click on the thumbnail at position [index], made with a
    consistent selection, selects that image and that index.  It sends
    no request when that thumbnail was already the selected one, and
    exactly one request, for that image with [original=true], when it
    was not. *)
Theorem thumbnail_click fetch index filename s :
  consistent (ui s) ->
  IMAGE_FILENAMES !! index = Some filename ->
  let s' := (click_thumbnail fetch index s).2 in
  currentIndex (ui s') = Z.of_nat index
  /\ selectedImage (ui s') = Some filename
  /\ (Z.of_nat index = currentIndex (ui s) -> requests s' = requests s)
  /\ (Z.of_nat index <> currentIndex (ui s) ->
      requests s' = (requests s ++ [signed_url_request filename true])%list).
Proof.
  intros [Hrange Hsel] Hidx s'. subst s'.
  pose proof (IMAGE_FILENAMES_nonempty _ _ Hidx) as Hne.
  unfold click_thumbnail, in_render, click_thumbnail_handler,
    selection_effect, in_render, handleImageSelect, setSelectedImage,
    setCurrentIndex, modify, mbind, C_bind.
  rewrite Hidx. cbn [fst snd ui requests selectedImage currentIndex].
  rewrite Hsel.
  destruct (decide (Z.of_nat index = currentIndex (ui s))) as [Heq|Hneq].
  - rewrite <- Heq, Nat2Z.id, Hidx. cbn [strict_eq].
    rewrite String.eqb_refl. cbn [fst snd ui requests selectedImage
      currentIndex]. done.
  - assert (strict_eq (Some filename)
              (IMAGE_FILENAMES !! Z.to_nat (currentIndex (ui s))) = false)
      as ->.
    { destruct (IMAGE_FILENAMES !! Z.to_nat (currentIndex (ui s)))
        as [g|] eqn:Hg; [|done].
      cbn [strict_eq]. apply String.eqb_neq. intros <-.
      apply Hneq.
      rewrite (NoDup_lookup _ _ _ _ IMAGE_FILENAMES_NoDup Hidx Hg). lia. }
    match goal with |- context [loadOriginalImage fetch ?r ?s1] =>
      rewrite (loadOriginalImage_runs fetch r s1 filename eq_refl Hne)
    end.
    destruct (settle _) as [[url0 err] det].
    cbn [fst snd ui requests selectedImage currentIndex]. done.
Qed.

Lemma thumbnail_click_witness :
  let s' := (click_thumbnail network_first_fails 3 initial_store).2 in
  currentIndex (ui s') = Z.of_nat 3
  /\ selectedImage (ui s') = Some "image4.jpg"
  /\ (Z.of_nat 3 = currentIndex (ui initial_store) ->
      requests s' = requests initial_store)
  /\ (Z.of_nat 3 <> currentIndex (ui initial_store) ->
      requests s'
      = (requests initial_store
         ++ [signed_url_request "image4.jpg" true])%list).
Proof.
  apply (thumbnail_click network_first_fails 3 "image4.jpg" initial_store).
  - split; [simpl; lia|reflexivity].
  - reflexivity.
Defined.

End ClientExtras.
